(** * TraceWave annotation model: a shallow embedding of [src/models.py],
    of the segmentation workflow of [src/ui/main_window.py] and of
    [src/services/sam2_service.py], with the properties of the
    specification stated over it.

    Python integers are unbounded and are modelled as [Z].  Dictionaries
    keyed by integers ([AnnotationModel.ann], [FrameAnno.objects]) are
    [gmap Z _]; the code only ever walks them in sorted key order or asks
    an order-independent question.  Text is modelled as ASCII strings:
    characters above 127 are treated as neither digits nor white space. *)

From Stdlib Require Import ZArith Ascii String.
From Stdlib.Floats Require Import SpecFloat.
From stdpp Require Import gmap strings list sorting pretty.

Local Open Scope Z_scope.

(** ** Python values, as [json.load] produces them *)

Module Py.

(** A decoded JSON document.  A dictionary keeps its items in insertion
    order and its keys are distinct; [get] reads the first binding of a
    key. *)
#[warnings="-register-all"]
Inductive value : Type :=
  | VNone
  | VBool (b : bool)
  | VInt (z : Z)
  | VFloat (f : spec_float)
  | VStr (s : string)
  | VList (l : list value)
  | VDict (d : list (string * value)).

(** [bool(v)]. *)
Definition truthy (v : value) : bool :=
  match v with
  | VNone => false
  | VBool b => b
  | VInt z => negb (z =? 0)
  | VFloat (S754_zero _) => false
  | VFloat _ => true
  | VStr s => negb (String.eqb s EmptyString)
  | VList l => match l with [] => false | _ => true end
  | VDict d => match d with [] => false | _ => true end
  end.

(** [a or b]. *)
Definition or_else (a b : value) : value := if truthy a then a else b.

Definition is_digit (c : ascii) : bool :=
  let n := nat_of_ascii c in ((48 <=? n) && (n <=? 57))%nat.

(** White space as [int(str)] skips it: TAB, LF, VT, FF, CR and space. *)
Definition is_space (c : ascii) : bool :=
  let n := nat_of_ascii c in (((9 <=? n) && (n <=? 13)) || (n =? 32))%nat.

Definition digit_val (c : ascii) : Z := Z.of_nat (nat_of_ascii c) - 48.

Definition chars (s : string) : list ascii := list_ascii_of_string s.

(** The number a sequence of decimal digits spells, most significant
    digit first. *)
Definition digits_value (cs : list ascii) : Z :=
  fold_left (fun acc c => 10 * acc + digit_val c) cs 0.

(** [str.isdigit()]: non-empty and made of digits only. *)
Definition isdigit (s : string) : bool :=
  match chars s with
  | [] => false
  | cs => forallb is_digit cs
  end.

(** The digits of an integer literal: groups of digits separated by
    single underscores.  [prev] tells whether the previous character was a
    digit; the result is [None] on any other character, on a leading,
    doubled or trailing underscore and on the empty literal. *)
Fixpoint literal_digits (prev : bool) (cs : list ascii) : option (list ascii) :=
  match cs with
  | [] => if prev then Some [] else None
  | c :: cs' =>
      if is_digit c then cons c <$> literal_digits true cs'
      else if (Ascii.eqb c "_"%char && prev)%bool then literal_digits false cs'
      else None
  end.

Fixpoint lstrip (cs : list ascii) : list ascii :=
  match cs with
  | c :: cs' => if is_space c then lstrip cs' else cs
  | [] => []
  end.

Definition strip (cs : list ascii) : list ascii :=
  rev (lstrip (rev (lstrip cs))).

(** [int(s)] for a string, base ten: optional white space, an optional
    sign, the literal, optional white space.  [None] is [ValueError].
    The interpreter's configurable cap on the number of digits is not
    modelled. *)
Definition int_of_chars (cs : list ascii) : option Z :=
  match strip cs with
  | "-"%char :: ds => (fun l => - digits_value l) <$> literal_digits false ds
  | "+"%char :: ds => digits_value <$> literal_digits false ds
  | ds => digits_value <$> literal_digits false ds
  end.

(** [int(f)] for a float: truncation toward zero; [None] for a NaN
    ([ValueError]) and for an infinity ([OverflowError]). *)
Definition int_of_float (f : spec_float) : option Z :=
  match f with
  | S754_zero _ => Some 0
  | S754_infinity _ | S754_nan => None
  | S754_finite s m e =>
      let v := if 0 <=? e then Z.pos m * 2 ^ e else Z.pos m / 2 ^ (- e) in
      Some (if s then - v else v)
  end.

(** [int(v)]; [None] when it raises. *)
Definition int (v : value) : option Z :=
  match v with
  | VInt z => Some z
  | VBool b => Some (if b then 1 else 0)
  | VFloat f => int_of_float f
  | VStr s => int_of_chars (chars s)
  | VNone | VList _ | VDict _ => None
  end.

(** [iter(v)]: the items a [for] loop sees; [None] is [TypeError]. *)
Definition iter (v : value) : option (list value) :=
  match v with
  | VList l => Some l
  | VStr s => Some ((fun c => VStr (String c EmptyString)) <$> chars s)
  | VDict d => Some ((fun kv => VStr kv.1) <$> d)
  | VNone | VBool _ | VInt _ | VFloat _ => None
  end.

(** [x, y = v]: exactly two items. *)
Definition unpack2 (v : value) : option (value * value) :=
  match iter v with
  | Some [x; y] => Some (x, y)
  | _ => None
  end.

(** [(int(x), int(y))] for [x, y = v]. *)
Definition int_pair (v : value) : option (Z * Z) :=
  '(x, y) ← unpack2 v; a ← int x; b ← int y; Some (a, b).

(** [[(int(x), int(y)) for x, y in v]]. *)
Definition int_pairs (v : value) : option (list (Z * Z)) :=
  iter v ≫= mapM int_pair.

(** [[int(x) for x in v]]. *)
Definition ints (v : value) : option (list Z) :=
  iter v ≫= mapM int.

Fixpoint assoc (k : string) (d : list (string * value)) : option value :=
  match d with
  | [] => None
  | (k', v) :: d' => if String.eqb k k' then Some v else assoc k d'
  end.

(** [rec.get(k, dflt)]; [None] ([AttributeError]) when [rec] is not a
    dictionary. *)
Definition get (rec : value) (k : string) (dflt : value) : option value :=
  match rec with
  | VDict d => Some (default dflt (assoc k d))
  | _ => None
  end.

(** [isinstance(v, list) and len(v) == n]. *)
Definition is_list_of_len (n : nat) (v : value) : bool :=
  match v with
  | VList l => (length l =? n)%nat
  | _ => false
  end.

(** [isinstance(v, list) and len(v) >= n]. *)
Definition is_list_of_min_len (n : nat) (v : value) : bool :=
  match v with
  | VList l => (n <=? length l)%nat
  | _ => false
  end.

Definition of_pair (p : Z * Z) : value := VList [VInt p.1; VInt p.2].
Definition of_pairs (l : list (Z * Z)) : value := VList (of_pair <$> l).
Definition of_ints (l : list Z) : value := VList (VInt <$> l).

End Py.

(** ** The data model of [src/models.py] *)

(** [ObjectAnno].  The box is [(x, y, w, h)].  [class_name] is declared
    [Optional[str]], but [load_records] stores whatever the record's
    ["class"] holds, so the field is a Python value, [VNone] for [None]. *)
Record ObjectAnno : Type := mkObjectAnno {
  box : option (Z * Z * Z * Z);
  points : list (Z * Z);
  labels : list Z;
  polygon : option (list (Z * Z));
  class_name : Py.value
}.

(** [ObjectAnno()]. *)
Definition new_object : ObjectAnno := mkObjectAnno None [] [] None Py.VNone.

Definition with_box (b : option (Z * Z * Z * Z)) (o : ObjectAnno) : ObjectAnno :=
  mkObjectAnno b (points o) (labels o) (polygon o) (class_name o).
Definition with_points (ps : list (Z * Z)) (o : ObjectAnno) : ObjectAnno :=
  mkObjectAnno (box o) ps (labels o) (polygon o) (class_name o).
Definition with_labels (ls : list Z) (o : ObjectAnno) : ObjectAnno :=
  mkObjectAnno (box o) (points o) ls (polygon o) (class_name o).
Definition with_polygon (pg : option (list (Z * Z))) (o : ObjectAnno) : ObjectAnno :=
  mkObjectAnno (box o) (points o) (labels o) pg (class_name o).
Definition with_class (c : Py.value) (o : ObjectAnno) : ObjectAnno :=
  mkObjectAnno (box o) (points o) (labels o) (polygon o) c.

(** The methods of [ObjectAnno]. *)
Module Obj.

Definition add_point (x y label : Z) (o : ObjectAnno) : ObjectAnno :=
  with_labels (labels o ++ [label]) (with_points (points o ++ [(x, y)]) o).

(** The loop of [remove_point] over [enumerate(zip(points, labels))]:
    the index of the first pair equal to [((x, y), label)], counted from
    [i]. *)
Fixpoint find_point (x y label : Z) (ps : list (Z * Z)) (ls : list Z) (i : nat)
  : option nat :=
  match ps, ls with
  | (px, py) :: ps', lab :: ls' =>
      if (px =? x) && (py =? y) && (lab =? label) then Some i
      else find_point x y label ps' ls' (S i)
  | _, _ => None
  end.

Definition remove_point (x y label : Z) (o : ObjectAnno) : ObjectAnno * bool :=
  match find_point x y label (points o) (labels o) 0 with
  | Some i =>
      (with_labels (delete i (labels o)) (with_points (delete i (points o)) o), true)
  | None => (o, false)
  end.

Definition set_box (x y w h : Z) (o : ObjectAnno) : ObjectAnno :=
  with_box (Some (x, y, w, h)) o.

(** [if polygon:] is false for [None] and for the empty list. *)
Definition set_polygon (pg : option (list (Z * Z))) (o : ObjectAnno) : ObjectAnno :=
  match pg with
  | Some (p :: l) => with_polygon (Some (p :: l)) o
  | Some [] | None => with_polygon None o
  end.

Definition set_class (name : Py.value) (o : ObjectAnno) : ObjectAnno :=
  with_class name o.

End Obj.

(** The three tests that [is_frame_annotated] and [to_records] make. *)
Definition has_box (o : ObjectAnno) : bool :=
  match box o with
  | Some (_, _, w, h) => (0 <? w) && (0 <? h)
  | None => false
  end.
Definition has_points (o : ObjectAnno) : bool := (0 <? length (points o))%nat.
Definition has_poly (o : ObjectAnno) : bool :=
  match polygon o with
  | Some l => (3 <=? length l)%nat
  | None => false
  end.
Definition has_content (o : ObjectAnno) : bool :=
  has_box o || has_points o || has_poly o.

Record FrameAnno : Type := mkFrameAnno { objects : gmap Z ObjectAnno }.

(** [FrameAnno.ensure_object], on the frame it belongs to. *)
Definition ensure_object (oid : Z) (fr : FrameAnno) : FrameAnno :=
  match objects fr !! oid with
  | Some _ => fr
  | None => mkFrameAnno (<[oid := new_object]> (objects fr))
  end.

(** [AnnotationModel]: the sorted frame names, the cursor, the sparse
    annotations and the dirty flag. *)
Record AnnotationModel : Type := mkModel {
  frames : list string;
  index : Z;
  ann : gmap Z FrameAnno;
  dirty : bool
}.

Definition with_ann (a : gmap Z FrameAnno) (m : AnnotationModel) : AnnotationModel :=
  mkModel (frames m) (index m) a (dirty m).
Definition with_dirty (d : bool) (m : AnnotationModel) : AnnotationModel :=
  mkModel (frames m) (index m) (ann m) d.
Definition with_index (i : Z) (m : AnnotationModel) : AnnotationModel :=
  mkModel (frames m) i (ann m) (dirty m).

(** The model [__init__] leaves, given the frame list it computed. *)
Definition new_model (fs : list string) : AnnotationModel := mkModel fs 0 ∅ false.

Definition clamp_index (m : AnnotationModel) (i : Z) : Z :=
  match frames m with
  | [] => 0
  | _ => Z.max 0 (Z.min i (Z.of_nat (length (frames m)) - 1))
  end.

Definition set_index (i : Z) (m : AnnotationModel) : AnnotationModel * Z :=
  (with_index (clamp_index m i) m, clamp_index m i).

(** [_frame(fidx)]: the frame entry is created when missing. *)
Definition _frame (fidx : option Z) (m : AnnotationModel) : AnnotationModel :=
  let idx := default (index m) fidx in
  match ann m !! idx with
  | Some _ => m
  | None => with_ann (<[idx := mkFrameAnno ∅]> (ann m)) m
  end.

(** [obj = self._frame(fidx).ensure_object(oid)]: the store afterwards.
    [obj] is then the object stored at [(fidx, oid)], and what the caller
    does to [obj] is done to the store by [update_obj]. *)
Definition obj_ref (fidx oid : Z) (m : AnnotationModel) : AnnotationModel :=
  let m1 := _frame (Some fidx) m in
  with_ann (alter (ensure_object oid) fidx (ann m1)) m1.

Definition update_obj (fidx oid : Z) (g : ObjectAnno -> ObjectAnno)
    (m : AnnotationModel) : AnnotationModel :=
  with_ann (alter (fun fr => mkFrameAnno (alter g oid (objects fr))) fidx (ann m)) m.

Definition get_object (m : AnnotationModel) (fidx oid : Z) : option ObjectAnno :=
  match ann m !! fidx with
  | None => None
  | Some fr => objects fr !! oid
  end.

Definition add_point (oid x y label : Z) (m : AnnotationModel) : AnnotationModel :=
  let m1 := obj_ref (index m) oid m in
  with_dirty true (update_obj (index m) oid (Obj.add_point x y label) m1).

Definition remove_point (oid x y label : Z) (m : AnnotationModel)
  : AnnotationModel * bool :=
  let m1 := obj_ref (index m) oid m in
  let obj := default new_object (get_object m1 (index m) oid) in
  let removed := (Obj.remove_point x y label obj).2 in
  let m2 := update_obj (index m) oid (fun o => (Obj.remove_point x y label o).1) m1 in
  (if removed then with_dirty true m2 else m2, removed).

Definition set_box (oid x y w h : Z) (m : AnnotationModel) : AnnotationModel :=
  let m1 := obj_ref (index m) oid m in
  with_dirty true (update_obj (index m) oid (Obj.set_box x y w h) m1).

Definition set_polygon (oid : Z) (pg : option (list (Z * Z))) (m : AnnotationModel)
  : AnnotationModel :=
  let m1 := obj_ref (index m) oid m in
  with_dirty true (update_obj (index m) oid (Obj.set_polygon pg) m1).

Definition set_class (oid : Z) (name : Py.value) (m : AnnotationModel)
  : AnnotationModel :=
  let m1 := obj_ref (index m) oid m in
  with_dirty true (update_obj (index m) oid (Obj.set_class name) m1).

Definition clear_object (oid : Z) (m : AnnotationModel) : AnnotationModel :=
  match ann m !! index m with
  | None => m
  | Some fr =>
      match objects fr !! oid with
      | Some _ =>
          with_dirty true
            (with_ann (<[index m := mkFrameAnno (<[oid := new_object]> (objects fr))]> (ann m)) m)
      | None => m
      end
  end.

(** The loop returns at the first object with content, so the answer is
    whether some value of [fr.objects] has content. *)
Definition is_frame_annotated (m : AnnotationModel) (fidx : Z) : bool :=
  match ann m !! fidx with
  | None => false
  | Some fr => existsb (fun kv => has_content kv.2) (map_to_list (objects fr))
  end.

(** ** Persistence *)

Definition ANNOT_SCHEMA_VERSION : Z := 1.

(** [for k in sorted(d.keys()): v = d[k]]: the items by increasing key. *)
Definition key_le {V : Type} (a b : Z * V) : Prop := a.1 <= b.1.

Global Instance key_le_dec {V : Type} (a b : Z * V) : Decision (key_le a b).
Proof. unfold key_le. apply _. Defined.

Definition sorted_items {V : Type} (d : gmap Z V) : list (Z * V) :=
  merge_sort key_le (map_to_list d).

Definition option_items (k : string) (present : bool) (v : Py.value)
  : list (string * Py.value) :=
  if present then [(k, v)] else [].

Definition box_value (b : option (Z * Z * Z * Z)) : Py.value :=
  match b with
  | Some (x, y, w, h) => Py.of_ints [x; y; w; h]
  | None => Py.VNone
  end.

(** The record [to_records] builds for one object that has content. *)
Definition make_record (video_id : string) (fidx oid : Z) (o : ObjectAnno) : Py.value :=
  Py.VDict
    ([("video_id"%string, Py.VStr video_id);
      ("frame_idx"%string, Py.VInt fidx);
      ("obj_id"%string, Py.VInt oid);
      ("points"%string, Py.of_pairs (points o));
      ("labels"%string, Py.of_ints (labels o))]
     ++ option_items "class" (Py.truthy (class_name o)) (class_name o)
     ++ option_items "box" (has_box o) (box_value (box o))
     ++ option_items "polygon" (has_poly o) (Py.of_pairs (default [] (polygon o)))).

Definition to_records (m : AnnotationModel) (video_id : string) : list Py.value :=
  '(fidx, fr) ← sorted_items (ann m);
  '(oid, o) ← sorted_items (objects fr);
  if has_content o then [make_record video_id fidx oid o] else [].

(** The body of the [try] of [load_records] runs statement by statement
    on the store; a statement that raises ends it, and what the earlier
    statements did to the store stays done. *)
Definition Try (A : Type) : Type := AnnotationModel -> option A * AnnotationModel.

Definition ret {A : Type} (a : A) : Try A := fun m => (Some a, m).
Definition raising {A : Type} (o : option A) : Try A := fun m => (o, m).
Definition modify (f : AnnotationModel -> AnnotationModel) : Try unit :=
  fun m => (Some tt, f m).
Definition bind {A B : Type} (c : Try A) (k : A -> Try B) : Try B :=
  fun m =>
    match c m with
    | (Some a, m') => k a m'
    | (None, m') => (None, m')
    end.

Global Instance Try_ret : MRet Try := @ret.
Global Instance Try_bind : MBind Try := fun A B k c => bind c k.

(** [tuple(int(v) for v in box)] for a list of four items. *)
Definition box_of_ints (l : list Z) : option (Z * Z * Z * Z) :=
  match l with
  | [x; y; w; h] => Some (x, y, w, h)
  | _ => None
  end.

Definition load_record (rec : Py.value) : Try unit :=
  (fidx ← raising (Py.get rec "frame_idx" (Py.VInt 0) ≫= Py.int) ;
   oid ← raising (Py.get rec "obj_id" (Py.VInt 1) ≫= Py.int) ;
   modify (obj_ref fidx oid) ;;
   pts ← raising (Py.get rec "points" (Py.VList [])) ;
   labs ← raising (Py.get rec "labels" (Py.VList [])) ;
   ps ← raising (Py.int_pairs (Py.or_else pts (Py.VList []))) ;
   modify (update_obj fidx oid (with_points ps)) ;;
   ls ← raising (Py.ints (Py.or_else labs (Py.VList []))) ;
   modify (update_obj fidx oid (with_labels ls)) ;;
   bx ← raising (Py.get rec "box" Py.VNone) ;
   (if Py.is_list_of_len 4 bx
    then b ← raising (Py.ints bx ≫= box_of_ints) ;
         modify (update_obj fidx oid (with_box (Some b)))
    else ret tt) ;;
   poly ← raising (Py.get rec "polygon" Py.VNone) ;
   (if Py.is_list_of_min_len 3 poly
    then pg ← raising (Py.int_pairs poly) ;
         modify (update_obj fidx oid (with_polygon (Some pg)))
    else ret tt) ;;
   cls ← raising (Py.get rec "class" Py.VNone) ;
   modify (update_obj fidx oid (with_class cls))).

(** [except Exception: continue]: the outcome of the body is dropped and
    the loop goes on from the store as the body left it. *)
Definition load_records (records : list Py.value) (m : AnnotationModel)
  : AnnotationModel :=
  fold_left (fun m rec => (load_record rec m).2) records m.

(** [save_annotations].  [models] is the dictionary from video id to
    model, in insertion order.  Creating the directory, opening the file
    and dumping the payload are one step of the outside world,
    [write_json], which gives [None] when any of them raises. *)
Section Save.
Context {World : Type}.
Variable write_json : string -> Py.value -> World -> option World.

Definition all_records (models : list (string * AnnotationModel)) : list Py.value :=
  '(vid, model) ← models; to_records model vid.

Definition save_annotations (path : string)
    (models : list (string * AnnotationModel)) (w : World)
  : list (string * AnnotationModel) * option World :=
  let models' := (fun kv => (kv.1, with_dirty false kv.2)) <$> models in
  let payload :=
    Py.VDict [("schema_version"%string, Py.VInt ANNOT_SCHEMA_VERSION);
              ("annotations"%string, Py.VList (all_records models))] in
  (models', write_json path payload w).
End Save.

(** ** Frame enumeration *)

(** A [Path] is modelled by its final component.  [rfind_dot] is
    [name.rfind('.')]. *)
Fixpoint rfind_dot (cs : list ascii) (i : nat) (found : option nat) : option nat :=
  match cs with
  | [] => found
  | c :: cs' => rfind_dot cs' (S i) (if Ascii.eqb c "."%char then Some i else found)
  end.

(** Where the suffix starts: the last dot, unless it is the first or the
    last character of the name. *)
Definition suffix_start (cs : list ascii) : option nat :=
  match rfind_dot cs 0 None with
  | Some i => if ((0 <? i) && (i <? length cs - 1))%nat then Some i else None
  | None => None
  end.

Definition stem (name : string) : string :=
  match suffix_start (Py.chars name) with
  | Some i => string_of_list_ascii (take i (Py.chars name))
  | None => name
  end.

Definition suffix (name : string) : string :=
  match suffix_start (Py.chars name) with
  | Some i => string_of_list_ascii (drop i (Py.chars name))
  | None => EmptyString
  end.

(** [re.findall(r"\d+", s)]: the maximal runs of digits, left to right.
    [cur] is the run being read. *)
Fixpoint digit_runs (cur : list ascii) (cs : list ascii) : list (list ascii) :=
  match cs with
  | [] => match cur with [] => [] | _ => [cur] end
  | c :: cs' =>
      if Py.is_digit c then digit_runs (cur ++ [c]) cs'
      else match cur with [] => digit_runs [] cs' | _ => cur :: digit_runs [] cs' end
  end.

(** [_numeric_key].  Both calls of [int] are on a non-empty string of
    digits, where [int] gives [digits_value] (lemma [int_of_digits]). *)
Definition _numeric_key (p : string) : Z :=
  let s := stem p in
  if Py.isdigit s then Py.digits_value (Py.chars s)
  else match last (digit_runs [] (Py.chars s)) with
       | Some run => Py.digits_value run
       | None => 0
       end.

(** [sorted(l, key=key)]: the stable sort by [key]. *)
Section Sorted.
Context {A : Type}.
Variable key : A -> Z.


End Sorted.

Definition lower_char (c : ascii) : ascii :=
  let n := nat_of_ascii c in
  if ((65 <=? n) && (n <=? 90))%nat then ascii_of_nat (n + 32) else c.

Definition lower (s : string) : string :=
  string_of_list_ascii (lower_char <$> Py.chars s).



(** ** The segmentation workflow *)

Record Sam2Service : Type := mkSam2 {
  available : bool;
  has_predictor : bool
}.

(** What [run_sam2] reads and writes of the main window: the models by
    video id, the selected video (the empty string when none), the service (absent
    before a project is loaded), whether OpenCV was imported, and the
    object id of the spin box.  The canvas and the status bar are left
    out. *)
Record Window : Type := mkWindow {
  models : gmap string AnnotationModel;
  current_video_id : string;
  sam2 : option Sam2Service;
  cv2 : bool;
  obj_spin : Z
}.

Definition current_model (w : Window) : option AnnotationModel :=
  if String.eqb (current_video_id w) EmptyString then None
  else models w !! current_video_id w.

(** How a call of [run_sam2] ends. *)
Inductive outcome : Type :=
  | Returned                            (* an early [return] *)
  | Raised                              (* an exception left the method *)
  | Committed (poly : list (Z * Z)).    (* [model.set_polygon(oid, poly)] ran *)

(** [l[i]] for a Python integer [i]. *)
Definition py_nth {A : Type} (l : list A) (i : Z) : option A :=
  if 0 <=? i then l !! Z.to_nat i
  else if 0 <=? Z.of_nat (length l) + i then l !! Z.to_nat (Z.of_nat (length l) + i)
  else None.

(** [max(l, key=key)]: the first item whose key is largest. *)
Fixpoint max_by {A : Type} (key : A -> Z) (l : list A) : option A :=
  match l with
  | [] => None
  | x :: l' =>
      match max_by key l' with
      | Some y => if key x <? key y then Some y else Some x
      | None => Some x
      end
  end.

Section Segmentation.
(** The collaborators: OpenCV's image reader, the predictor (image,
    point prompts, labels, box as corners; one mask), the contour
    finder and the contour area, which for integer vertices is half an
    integer and is compared through its double. *)
Context {Image Mask : Type}.
Variable imread : string -> option Image.
Variable predict :
  Image -> option (list (Z * Z)) -> option (list Z) -> option (Z * Z * Z * Z) -> Mask.
Variable findContours : Mask -> list (list (Z * Z)).
Variable contourArea2 : list (Z * Z) -> Z.

(** [_mask_to_polygon]: a contour is an [(N, 1, 2)] array, so after
    [squeeze(axis=1)] it always has two axes and two columns. *)
Definition _mask_to_polygon (cv2_ok : bool) (mask : Mask) : list (Z * Z) :=
  if negb cv2_ok then []
  else match max_by contourArea2 (findContours mask) with
       | None => []
       | Some cnt => cnt
       end.

Definition nonempty {A : Type} (l : list A) : option (list A) :=
  match l with [] => None | _ => Some l end.

Definition generate_polygon (cv2_ok : bool) (svc : Sam2Service) (image : Image)
    (points_xy : list (Z * Z)) (point_labels : list Z)
    (box_xywh : option (Z * Z * Z * Z)) : list (Z * Z) :=
  if negb (available svc) || negb (has_predictor svc) then []
  else
    let box_xyxy :=
      match box_xywh with
      | Some (x, y, w, h) =>
          if (0 <? w) && (0 <? h) then Some (x, y, x + w, y + h) else None
      | None => None
      end in
    let mask := predict image (nonempty points_xy) (nonempty point_labels) box_xyxy in
    _mask_to_polygon cv2_ok mask.

Definition put_model (w : Window) (m : AnnotationModel) : Window :=
  mkWindow (<[current_video_id w := m]> (models w)) (current_video_id w)
           (sam2 w) (cv2 w) (obj_spin w).

Definition run_sam2 (w : Window) : Window * outcome :=
  match current_model w with
  | None => (w, Returned)
  | Some model =>
      match sam2 w with
      | None => (w, Returned)
      | Some svc =>
          if negb (available svc) then (w, Returned)
          else if negb (cv2 w) then (w, Returned)
          else
            let fidx := index model in
            let oid := obj_spin w in
            match get_object model fidx oid with
            | None => (w, Returned)
            | Some obj =>
                if negb (has_points obj) && negb (has_box obj) then (w, Returned)
                else
                  match py_nth (frames model) fidx with
                  | None => (w, Raised)
                  | Some img_path =>
                      match imread img_path with
                      | None => (w, Returned)
                      | Some img =>
                          match generate_polygon (cv2 w) svc img (points obj)
                                  (labels obj) (box obj) with
                          | [] => (w, Returned)
                          | poly => (put_model w (set_polygon oid (Some poly) model),
                                     Committed poly)
                          end
                      end
                  end
            end
      end
  end.
End Segmentation.

(** ** The vocabulary of the properties *)

(** The three kinds of content, as the data model words them. *)
Definition valid_box (o : ObjectAnno) : Prop :=
  ∃ x y w h, box o = Some (x, y, w, h) ∧ 0 < w ∧ 0 < h.
Definition some_point (o : ObjectAnno) : Prop := points o ≠ [].
Definition real_polygon (o : ObjectAnno) : Prop :=
  ∃ l, polygon o = Some l ∧ (3 <= length l)%nat.

(** The four setters share one shape: ensure the object of the current
    frame, change it, raise the dirty flag. *)
Definition mutate (oid : Z) (g : ObjectAnno -> ObjectAnno) (m : AnnotationModel)
  : AnnotationModel :=
  with_dirty true (update_obj (index m) oid g (obj_ref (index m) oid m)).

(** Position [i] of the object holds the point [(x, y)] with [label]. *)
Definition matches_at (x y label : Z) (o : ObjectAnno) (i : nat) : Prop :=
  points o !! i = Some (x, y) ∧ labels o !! i = Some label.

Definition first_match (x y label : Z) (o : ObjectAnno) (i : nat) : Prop :=
  matches_at x y label o i ∧ ∀ j, (j < i)%nat → ¬ matches_at x y label o j.

(** The parts of a record as [load_records] reads them. *)
Definition record_target (rec : Py.value) : option (Z * Z) :=
  fidx ← Py.get rec "frame_idx" (Py.VInt 0) ≫= Py.int;
  oid ← Py.get rec "obj_id" (Py.VInt 1) ≫= Py.int;
  Some (fidx, oid).

Definition record_points (rec : Py.value) : option (list (Z * Z)) :=
  pts ← Py.get rec "points" (Py.VList []);
  Py.int_pairs (Py.or_else pts (Py.VList [])).

Definition record_labels (rec : Py.value) : option (list Z) :=
  labs ← Py.get rec "labels" (Py.VList []);
  Py.ints (Py.or_else labs (Py.VList [])).

(** [None] when the box is a list of four items that do not all convert;
    the identity when the record has no such list. *)
Definition box_step (rec : Py.value) : option (ObjectAnno -> ObjectAnno) :=
  bx ← Py.get rec "box" Py.VNone;
  if Py.is_list_of_len 4 bx
  then b ← Py.ints bx ≫= box_of_ints; Some (with_box (Some b))
  else Some id.

Definition polygon_step (rec : Py.value) : option (ObjectAnno -> ObjectAnno) :=
  poly ← Py.get rec "polygon" Py.VNone;
  if Py.is_list_of_min_len 3 poly
  then pg ← Py.int_pairs poly; Some (with_polygon (Some pg))
  else Some id.

Definition class_step (rec : Py.value) : ObjectAnno -> ObjectAnno :=
  with_class (default Py.VNone (Py.get rec "class" Py.VNone)).

(** The change a record makes to its object: the assignments that ran
    before the first statement that raised, all of them when none did. *)
Definition record_update (rec : Py.value) : ObjectAnno -> ObjectAnno :=
  match record_points rec with
  | None => id
  | Some ps =>
    match record_labels rec with
    | None => with_points ps
    | Some ls =>
      match box_step rec with
      | None => with_labels ls ∘ with_points ps
      | Some bf =>
        match polygon_step rec with
        | None => bf ∘ with_labels ls ∘ with_points ps
        | Some pf => class_step rec ∘ pf ∘ bf ∘ with_labels ls ∘ with_points ps
        end
      end
    end
  end.

(** Whether the body of the [try] ran to its end. *)
Definition record_parses (rec : Py.value) : bool :=
  bool_decide (is_Some (record_target rec) ∧ is_Some (record_points rec) ∧
               is_Some (record_labels rec) ∧ is_Some (box_step rec) ∧
               is_Some (polygon_step rec)).

Definition parallel_obj (o : ObjectAnno) : Prop :=
  length (points o) = length (labels o).

Definition parallel (m : AnnotationModel) : Prop :=
  ∀ f oid o, get_object m f oid = Some o → parallel_obj o.

(** A record keeps the two sequences parallel when, if its points
    convert, its labels convert too and are as many. *)
Definition parallel_record (rec : Py.value) : bool :=
  match record_points rec with
  | None => true
  | Some ps =>
      match record_labels rec with
      | Some ls => (length ps =? length ls)%nat
      | None => false
      end
  end.

(** What a reload keeps of an object: the box only if valid, the polygon
    only with three vertices or more, the class only if it is truthy (for
    a string: not empty). *)
Definition stored (o : ObjectAnno) : ObjectAnno :=
  mkObjectAnno (if has_box o then box o else None) (points o) (labels o)
               (if has_poly o then polygon o else None)
               (if Py.truthy (class_name o) then class_name o else Py.VNone).

(** The objects [to_records] writes, as [(frame, object id, object)], in
    the order it writes them. *)
Definition entries (m : AnnotationModel) : list (Z * Z * ObjectAnno) :=
  '(fidx, fr) ← sorted_items (ann m);
  '(oid, o) ← sorted_items (objects fr);
  if has_content o then [(fidx, oid, o)] else [].

Definition entry_record (vid : string) (e : Z * Z * ObjectAnno) : Py.value :=
  make_record vid e.1.1 e.1.2 e.2.

(** The stores that a sequence of mutations builds from a fresh one. *)
Inductive built : AnnotationModel → Prop :=
  | built_new fs : built (new_model fs)
  | built_set_index i m : built m → built (set_index i m).1
  | built_add_point oid x y label m : built m → built (add_point oid x y label m)
  | built_remove_point oid x y label m :
      built m → built (remove_point oid x y label m).1
  | built_set_box oid x y w h m : built m → built (set_box oid x y w h m)
  | built_set_polygon oid pg m : built m → built (set_polygon oid pg m)
  | built_set_class oid name m : built m → built (set_class oid name m)
  | built_clear_object oid m : built m → built (clear_object oid m).

(** A window on one video whose object 1 has a zero-area box, no point,
    and a committed polygon. *)
Definition window_without_prompt : Window :=
  mkWindow
    {[ "v"%string :=
         set_polygon 1 (Some [(0, 0); (4, 0); (4, 4)])
           (set_box 1 0 0 0 0 (new_model ["1.jpg"%string])) ]}
    "v" (Some (mkSam2 true true)) true 1.

(** Two records for object 1 of frame 0: the first has a box, a polygon
    and a class, the second only a point. *)
Definition record_with_box : Py.value :=
  Py.VDict [("video_id"%string, Py.VStr "v"); ("frame_idx"%string, Py.VInt 0);
            ("obj_id"%string, Py.VInt 1);
            ("points"%string, Py.of_pairs [(7, 7)]); ("labels"%string, Py.of_ints [0]);
            ("class"%string, Py.VStr "cat");
            ("box"%string, Py.of_ints [0; 0; 5; 5]);
            ("polygon"%string, Py.of_pairs [(0, 0); (5, 0); (5, 5)])].

Definition record_with_point : Py.value :=
  Py.VDict [("video_id"%string, Py.VStr "v"); ("frame_idx"%string, Py.VInt 0);
            ("obj_id"%string, Py.VInt 1);
            ("points"%string, Py.of_pairs [(1, 1)]); ("labels"%string, Py.of_ints [1])].

(** A store whose object 1 of frame 0 has two points, and a record for
    that object whose points convert and whose labels do not. *)
Definition store_with_two_points : AnnotationModel :=
  add_point 1 6 6 0 (add_point 1 5 5 1 (new_model ["1.jpg"%string])).

Definition record_with_bad_labels : Py.value :=
  Py.VDict [("video_id"%string, Py.VStr "v"); ("frame_idx"%string, Py.VInt 0);
            ("obj_id"%string, Py.VInt 1);
            ("points"%string, Py.of_pairs [(1, 2)]);
            ("labels"%string, Py.VList [Py.VStr "x"])].

(** A window on one video whose object 1 has a point and a committed
    triangle. *)
Definition window_with_polygon : Window :=
  mkWindow
    {[ "v"%string :=
         set_polygon 1 (Some [(0, 0); (10, 0); (10, 10)])
           (add_point 1 3 4 1 (new_model ["1.jpg"%string])) ]}
    "v" (Some (mkSam2 true true)) true 1.

(** A store with unsaved changes, under the video id ["v"]. *)
Definition unsaved_models : list (string * AnnotationModel) :=
  [("v"%string, add_point 1 10 20 1 (new_model ["1.jpg"%string]))].

(** ** More vocabulary: the order of the records *)

(** [(frame, object id)] pairs in the order [to_records] walks them:
    by frame, then by object id. *)
Definition target_lt (a b : Z * Z) : Prop :=
  a.1 < b.1 ∨ (a.1 = b.1 ∧ a.2 < b.2).

Definition entry_lt (a b : Z * Z * ObjectAnno) : Prop := target_lt a.1 b.1.

(** ** Reading the annotations file *)

(** Dictionary keys.  Python compares numbers by value whatever their
    type ([1 == True == 1.0]), so a key is kept in a normal form: an
    integer-valued number as that integer, any other finite float as
    [(-1)^s * m * 2^e] with [m] odd.  The NaN of a decoded document is one
    object, equal to itself as a key.  Lists and dictionaries cannot be
    keys. *)
Inductive key : Type :=
  | KNone
  | KStr (s : string)
  | KInt (z : Z)
  | KFrac (s : bool) (m : positive) (e : Z)
  | KInf (s : bool)
  | KNaN.

Global Instance key_eq_dec : EqDecision key.
Proof. solve_decision. Defined.

(** [m = q * 2^k] with [q] odd. *)
Fixpoint odd_part (m : positive) : positive * Z :=
  match m with
  | xO p => let '(q, k) := odd_part p in (q, k + 1)
  | _ => (m, 0)
  end.

Definition key_of_float (f : spec_float) : key :=
  match f with
  | S754_zero _ => KInt 0
  | S754_infinity s => KInf s
  | S754_nan => KNaN
  | S754_finite s m e =>
      let '(q, k) := odd_part m in
      if 0 <=? e + k
      then KInt ((if s then -1 else 1) * (Z.pos q * 2 ^ (e + k)))
      else KFrac s q (e + k)
  end.

(** The key a value makes; [None] is [TypeError: unhashable type]. *)
Definition key_of (v : Py.value) : option key :=
  match v with
  | Py.VNone => Some KNone
  | Py.VStr s => Some (KStr s)
  | Py.VInt z => Some (KInt z)
  | Py.VBool b => Some (KInt (if b then 1 else 0))
  | Py.VFloat f => Some (key_of_float f)
  | Py.VList _ | Py.VDict _ => None
  end.

(** [by_video]: the lists of records by key, in the order the keys were
    first seen. *)
Fixpoint group_lookup (k : key) (d : list (key * list Py.value))
  : option (list Py.value) :=
  match d with
  | [] => None
  | (k', l) :: d' => if decide (k = k') then Some l else group_lookup k d'
  end.

(** [by_video.setdefault(k, []).append(rec)]. *)
Fixpoint group_add (k : key) (rec : Py.value) (d : list (key * list Py.value))
  : list (key * list Py.value) :=
  match d with
  | [] => [(k, [rec])]
  | (k', l) :: d' =>
      if decide (k = k') then (k', l ++ [rec]) :: d' else (k', l) :: group_add k rec d'
  end.

(** One turn of the loop of [load_annotations]; [None] when it raises,
    which nothing catches. *)
Definition group_record (rec : Py.value) (d : list (key * list Py.value))
  : option (list (key * list Py.value)) :=
  vid ← Py.get rec "video_id" (Py.VStr EmptyString);
  if negb (Py.truthy vid) then Some d
  else k ← key_of vid; Some (group_add k rec d).

(** What a path holds for a loader: no file, a file that [json.load]
    rejects, or a decoded document. *)
Inductive annotations_file : Type :=
  | NoFile
  | NotJson
  | Document (data : Py.value).

Definition load_annotations (file : annotations_file)
  : option (list (key * list Py.value)) :=
  match file with
  | NoFile => Some []
  | NotJson => None
  | Document data =>
      records ← Py.get data "annotations" (Py.VList []) ≫= Py.iter;
      foldl (λ acc rec, acc ≫= group_record rec) (Some []) records
  end.

(** The loop of [MainWindow.load_project] that builds the stores: each
    video comes with its id and the frame list its [AnnotationModel]
    finds. *)
Definition open_models (videos : list (string * list string))
    (records_by_video : list (key * list Py.value)) : gmap string AnnotationModel :=
  foldl (λ models v,
           let model := new_model v.2 in
           let model :=
             match group_lookup (KStr v.1) records_by_video with
             | Some recs => load_records recs model
             | None => model
             end in
           <[v.1 := model]> models) ∅ videos.

(** The document [save_annotations] hands to the writer. *)
Definition annotations_document (models : list (string * AnnotationModel)) : Py.value :=
  Py.VDict [("schema_version"%string, Py.VInt ANNOT_SCHEMA_VERSION);
            ("annotations"%string, Py.VList (all_records models))].

(** The records of a list that carry the video id [vid]. *)
Definition has_video_id (vid : string) (rec : Py.value) : bool :=
  match Py.get rec "video_id" (Py.VStr EmptyString) with
  | Some (Py.VStr s) => String.eqb s vid
  | _ => false
  end.

Definition records_of_video (vid : string) (records : list Py.value) : list Py.value :=
  filter (λ rec, has_video_id vid rec) records.

(** ** The project descriptor: [src/project/types.py], [src/project/store.py] *)

(** [str(v)].  For a float, a list or a dictionary the text is Python's
    [repr], which is not modelled: [repr_of] stands for it. *)
Definition py_str (repr_of : Py.value → string) (v : Py.value) : string :=
  match v with
  | Py.VStr s => s
  | Py.VNone => "None"
  | Py.VBool true => "True"
  | Py.VBool false => "False"
  | Py.VInt z => pretty z
  | Py.VFloat _ | Py.VList _ | Py.VDict _ => repr_of v
  end.

(** What the code takes from outside: [str] of composite values, a
    [Path] read as the text [Path(s).as_posix()] gives (paths are kept in
    that form), the last component of the project root, and the three
    readings of the clock that a load makes. *)
Record Env : Type := mkEnv {
  repr_of : Py.value → string;
  as_posix : string → string;
  root_name : string → string;
  now_created : string;
  now_opened : string;
  now_loaded : string
}.

(** [Path(v)]: [TypeError] unless [v] is a string. *)
Definition as_path (env : Env) (v : Py.value) : option string :=
  match v with
  | Py.VStr s => Some (as_posix env s)
  | _ => None
  end.

Module Sam2Settings.
Record t : Type := mk {
  config_name : string;
  weights_path : string;
  auto_run : bool
}.

Definition default : t :=
  mk "sam2_hiera_t.yaml" "app/sam2_configs/sam2_hiera_tiny.pt" true.

Definition to_dict (x : t) : Py.value :=
  Py.VDict [("config_name"%string, Py.VStr (config_name x));
            ("weights_path"%string, Py.VStr (weights_path x));
            ("auto_run"%string, Py.VBool (auto_run x))].

Definition from_dict (env : Env) (data : Py.value) : option t :=
  c ← Py.get data "config_name" (Py.VStr (config_name default));
  w ← Py.get data "weights_path" (Py.VStr (weights_path default));
  a ← Py.get data "auto_run" (Py.VBool (auto_run default));
  Some (mk (py_str (repr_of env) c) (py_str (repr_of env) w) (Py.truthy a)).
End Sam2Settings.

Module UIState.
(** [last_video_id] and [last_class] are stored as read, whatever they
    are. *)
Record t : Type := mk {
  last_video_id : Py.value;
  last_frame_index : Z;
  mode : string;
  show_only_annotated : bool;
  last_class : Py.value;
  last_obj_id : Z
}.

Definition default : t := mk Py.VNone 0 "box" false Py.VNone 1.

Definition to_dict (x : t) : Py.value :=
  Py.VDict [("last_video_id"%string, last_video_id x);
            ("last_frame_index"%string, Py.VInt (last_frame_index x));
            ("mode"%string, Py.VStr (mode x));
            ("show_only_annotated"%string, Py.VBool (show_only_annotated x));
            ("last_class"%string, last_class x);
            ("last_obj_id"%string, Py.VInt (last_obj_id x))].

Definition from_dict (env : Env) (data : Py.value) : option t :=
  v ← Py.get data "last_video_id" Py.VNone;
  i ← Py.get data "last_frame_index" (Py.VInt 0) ≫= Py.int;
  md ← Py.get data "mode" (Py.VStr "box");
  s ← Py.get data "show_only_annotated" (Py.VBool false);
  c ← Py.get data "last_class" Py.VNone;
  o ← Py.get data "last_obj_id" (Py.VInt 1) ≫= Py.int;
  Some (mk v i (py_str (repr_of env) md) (Py.truthy s) c o).
End UIState.

Module ClassLabel.
Record t : Type := mk {
  name : string;
  color : string
}.

Definition to_dict (x : t) : Py.value :=
  Py.VDict [("name"%string, Py.VStr (name x)); ("color"%string, Py.VStr (color x))].

Definition from_dict (env : Env) (data : Py.value) : option t :=
  n ← Py.get data "name" (Py.VStr "class");
  c ← Py.get data "color" (Py.VStr "#00FF00");
  Some (mk (py_str (repr_of env) n) (py_str (repr_of env) c)).
End ClassLabel.

Module VideoItem.
(** [fps] is stored as read. *)
Record t : Type := mk {
  id : string;
  name : string;
  source_path : string;
  frames_dir : string;
  frame_count : Z;
  fps : Py.value
}.

Definition to_dict (x : t) : Py.value :=
  Py.VDict [("id"%string, Py.VStr (id x));
            ("name"%string, Py.VStr (name x));
            ("source_path"%string, Py.VStr (source_path x));
            ("frames_dir"%string, Py.VStr (frames_dir x));
            ("frame_count"%string, Py.VInt (frame_count x));
            ("fps"%string, fps x)].

Definition from_dict (env : Env) (data : Py.value) : option t :=
  i ← Py.get data "id" (Py.VStr EmptyString);
  n ← Py.get data "name" (Py.VStr EmptyString);
  s ← Py.get data "source_path" (Py.VStr EmptyString);
  f ← Py.get data "frames_dir" (Py.VStr EmptyString);
  c ← Py.get data "frame_count" (Py.VInt 0) ≫= Py.int;
  r ← Py.get data "fps" Py.VNone;
  Some (mk (py_str (repr_of env) i) (py_str (repr_of env) n) (py_str (repr_of env) s)
           (py_str (repr_of env) f) c r).
End VideoItem.

Definition SCHEMA_VERSION : Z := 1.

Module Project.
Record t : Type := mk {
  root : string;
  name : string;
  created_at : string;
  last_opened : string;
  frames_root : string;
  annotations_path : string;
  videos : list VideoItem.t;
  classes : list ClassLabel.t;
  ui_state : UIState.t;
  sam2 : Sam2Settings.t
}.

Definition with_last_opened (s : string) (p : t) : t :=
  mk (root p) (name p) (created_at p) s (frames_root p) (annotations_path p)
     (videos p) (classes p) (ui_state p) (sam2 p).
Definition with_classes (cs : list ClassLabel.t) (p : t) : t :=
  mk (root p) (name p) (created_at p) (last_opened p) (frames_root p)
     (annotations_path p) (videos p) cs (ui_state p) (sam2 p).
Definition with_root (r : string) (p : t) : t :=
  mk r (name p) (created_at p) (last_opened p) (frames_root p)
     (annotations_path p) (videos p) (classes p) (ui_state p) (sam2 p).

Definition to_dict (p : t) : Py.value :=
  Py.VDict [("schema_version"%string, Py.VInt SCHEMA_VERSION);
            ("project_name"%string, Py.VStr (name p));
            ("created_at"%string, Py.VStr (created_at p));
            ("last_opened"%string, Py.VStr (last_opened p));
            ("frames_root"%string, Py.VStr (frames_root p));
            ("annotations_path"%string, Py.VStr (annotations_path p));
            ("videos"%string, Py.VList (VideoItem.to_dict <$> videos p));
            ("classes"%string, Py.VList (ClassLabel.to_dict <$> classes p));
            ("ui_state"%string, UIState.to_dict (ui_state p));
            ("sam2"%string, Sam2Settings.to_dict (sam2 p))].

Definition from_dict (env : Env) (root : string) (data : Py.value) : option t :=
  fr ← Py.get data "frames_root" (Py.VStr "frames") ≫= as_path env;
  ap ← Py.get data "annotations_path" (Py.VStr "annotations.json") ≫= as_path env;
  vs ← (Py.get data "videos" (Py.VList []) ≫= Py.iter)
         ≫= mapM (VideoItem.from_dict env);
  cs ← (Py.get data "classes" (Py.VList []) ≫= Py.iter)
         ≫= mapM (ClassLabel.from_dict env);
  ui ← Py.get data "ui_state" (Py.VDict []) ≫= UIState.from_dict env;
  sm ← Py.get data "sam2" (Py.VDict []) ≫= Sam2Settings.from_dict env;
  n ← Py.get data "project_name" (Py.VStr (root_name env root));
  c ← Py.get data "created_at" (Py.VStr (now_created env));
  l ← Py.get data "last_opened" (Py.VStr (now_opened env));
  Some (mk root (py_str (repr_of env) n) (py_str (repr_of env) c)
           (py_str (repr_of env) l) fr ap vs cs ui sm).

Definition default_classes : list ClassLabel.t :=
  [ClassLabel.mk "default" "#00FF00"; ClassLabel.mk "object" "#FFD700"].

Definition set_default_classes (p : t) : t :=
  match classes p with
  | [] => with_classes default_classes p
  | _ => p
  end.
End Project.

(** How [store.load_project] ends. *)
Inductive load_outcome : Type :=
  | FileNotFound
  | LoadRaises
  | Loaded (project : Project.t) (warning : string).

Definition schema_warning (schema : Z) : string :=
  if decide (schema = SCHEMA_VERSION) then EmptyString
  else "Project schema " +:+ pretty schema +:+ " differs from app schema "
       +:+ pretty SCHEMA_VERSION +:+ ".".

(** [store.load_project]; [root] is the directory of the descriptor. *)
Definition load_project (env : Env) (root : string) (file : annotations_file)
  : load_outcome :=
  match file with
  | NoFile => FileNotFound
  | NotJson => LoadRaises
  | Document data =>
      match Py.get data "schema_version" (Py.VInt 0) ≫= Py.int with
      | None => LoadRaises
      | Some schema =>
          match Project.from_dict env root data with
          | None => LoadRaises
          | Some proj =>
              Loaded (Project.set_default_classes
                        (Project.with_last_opened (now_loaded env) proj))
                     (schema_warning schema)
          end
      end
  end.

(** The document [store.save_project] writes, after it has stamped the
    project with the time [now]. *)
Definition save_project_document (now : string) (p : Project.t) : Py.value :=
  Project.to_dict (Project.with_last_opened now p).

(** A project whose two paths are in the form [Path] keeps them in. *)
Definition normal_paths (env : Env) (p : Project.t) : Prop :=
  as_posix env (Project.frames_root p) = Project.frames_root p
  ∧ as_posix env (Project.annotations_path p) = Project.annotations_path p.

(** An environment for examples: paths already in posix form, a root
    called ["demo"], and three clock readings. *)
Definition demo_env : Env :=
  mkEnv (λ _, "?"%string) (λ s, s) (λ _, "demo"%string)
        "2024-01-01T00:00:00+00:00" "2024-01-01T00:00:01+00:00"
        "2024-01-02T00:00:00+00:00".

Definition demo_project : Project.t :=
  Project.mk "/work/demo" "demo" "2023-12-31T00:00:00+00:00" "2023-12-31T00:00:00+00:00"
    "frames" "annotations.json"
    [VideoItem.mk "vid_1" "clip" "/videos/clip.mp4" "frames/clip" 12 Py.VNone]
    [ClassLabel.mk "cat" "#112233"]
    (UIState.mk (Py.VStr "vid_1") 3 "point" true Py.VNone 2)
    (Sam2Settings.mk "cfg.yaml" "weights.pt" false).

(** ** Importing videos: [src/services/video_importer.py] *)

(** White space as [str.strip] removes it: TAB to CR, FS to US, space. *)
Definition is_strip_space (c : ascii) : bool :=
  let n := nat_of_ascii c in
  (((9 <=? n) && (n <=? 13)) || ((28 <=? n) && (n <=? 32)))%nat.

Fixpoint lstrip_str (cs : list ascii) : list ascii :=
  match cs with
  | c :: cs' => if is_strip_space c then lstrip_str cs' else cs
  | [] => []
  end.

Definition strip_str (cs : list ascii) : list ascii :=
  rev (lstrip_str (rev (lstrip_str cs))).

(** The characters of [[A-Za-z0-9._-]]. *)
Definition is_safe_char (c : ascii) : bool :=
  let n := nat_of_ascii c in
  (((65 <=? n) && (n <=? 90)) || ((97 <=? n) && (n <=? 122))
   || ((48 <=? n) && (n <=? 57)) || (n =? 46) || (n =? 95) || (n =? 45))%nat.

(** [re.sub(r"[^A-Za-z0-9._-]+", "_", s)]: every maximal run of other
    characters becomes one underscore.  [in_run] tells whether the
    previous character was replaced. *)
Fixpoint sub_unsafe (in_run : bool) (cs : list ascii) : list ascii :=
  match cs with
  | [] => []
  | c :: cs' =>
      if is_safe_char c then c :: sub_unsafe false cs'
      else if in_run then sub_unsafe true cs'
      else "_"%char :: sub_unsafe true cs'
  end.

Definition _safe_stem (path : string) : string :=
  match sub_unsafe false (strip_str (Py.chars (stem path))) with
  | [] => "video"
  | cs => string_of_list_ascii cs
  end.

(** [f"{base_name}_{i}"]. *)
Definition numbered (base_name : string) (i : nat) : string :=
  base_name +:+ "_" +:+ pretty i.

(** The loop of [_unique_dir], from [i], for at most [fuel] turns.
    [existing] holds the names that exist under the root. *)
Fixpoint unique_from (existing : gset string) (base_name : string) (fuel i : nat)
  : option string :=
  match fuel with
  | O => None
  | S fuel' =>
      if decide (numbered base_name i ∈ existing)
      then unique_from existing base_name fuel' (S i)
      else Some (numbered base_name i)
  end.

Definition _unique_dir (existing : gset string) (base_name : string) (fuel : nat)
  : option string :=
  if decide (base_name ∈ existing) then unique_from existing base_name fuel 1
  else Some base_name.

Module VideoImportResult.
Record t : Type := mk {
  source_path : string;
  frames_dir : string;
  frame_count : nat;
  fps : option spec_float
}.
End VideoImportResult.

(** What the thread emits: [progress(message, current, total)] and
    [error(message)]. *)
Inductive import_event : Type :=
  | Progress (message : string) (current total : nat)
  | Error (message : string).

(** What happens to one video between the first [progress] and the end
    of the [try]: an exception before the output directory exists, an
    exception after [mkdir] made it (from [ffmpeg] or from the listing),
    or the names listed in the directory and the frame rate probed. *)
Inductive extraction : Type :=
  | FailsBeforeMkdir (message : string)
  | FailsAfterMkdir (message : string)
  | Extracted (listing : list string) (fps : option spec_float).

Definition progress_text (what video : string) (idx total : nat) : string :=
  what +:+ " " +:+ video +:+ " (" +:+ pretty idx +:+ "/" +:+ pretty total +:+ ")".

Section ImportThread.
(** [extract video out_dir]: the work of [_extract], of the listing and
    of [_probe_fps] for one video. *)
Variable extract : string → string → extraction.

(** The state of the loop of [run]: the names under the frames root, the
    results and the events so far (latest last). *)
Record import_state : Type := mkImport {
  existing : gset string;
  results : list VideoImportResult.t;
  events : list import_event
}.

(** One turn of the loop for the video number [idx] of [total]; [None]
    only if [_unique_dir] were to run out of turns. *)
Definition import_one (total : nat) (st : import_state) (idx : nat) (video : string)
  : option import_state :=
  let base := _safe_stem video in
  out_dir ← _unique_dir (existing st) base (S (size (existing st)));
  let started :=
    events st ++ [Progress (progress_text "Extracting" video idx total) (idx - 1) total] in
  match extract video out_dir with
  | FailsBeforeMkdir msg =>
      Some (mkImport (existing st) (results st)
              (started ++ [Error (video +:+ ": " +:+ msg);
                           Progress (progress_text "Failed" video idx total) idx total]))
  | FailsAfterMkdir msg =>
      Some (mkImport ({[out_dir]} ∪ existing st) (results st)
              (started ++ [Error (video +:+ ": " +:+ msg);
                           Progress (progress_text "Failed" video idx total) idx total]))
  | Extracted listing fps =>
      let frame_count :=
        length (filter (λ p, lower (suffix p) ∈ [".jpg"; ".png"]%string) listing) in
      Some (mkImport ({[out_dir]} ∪ existing st)
              (results st ++ [VideoImportResult.mk video out_dir frame_count fps])
              (started ++ [Progress (progress_text "Extracted" video idx total) idx total]))
  end.

Fixpoint import_loop (total : nat) (st : import_state) (idx : nat)
    (videos : list string) : option import_state :=
  match videos with
  | [] => Some st
  | video :: videos' =>
      st' ← import_one total st idx video;
      import_loop total st' (S idx) videos'
  end.

(** [VideoImportThread.run], once the frames root exists: the final
    state, whose [results] the [finished] signal carries. *)
Definition run_import (existing0 : gset string) (videos : list string)
  : option import_state :=
  import_loop (length videos) (mkImport existing0 [] []) 1 videos.
End ImportThread.

Definition is_error (e : import_event) : bool :=
  match e with
  | Error _ => true
  | Progress _ _ _ => false
  end.

(** How many [error] signals a list of events holds. *)
Definition errors_of (evs : list import_event) : nat :=
  length (filter (λ e, is_error e) evs).

(** ** The YAML export of [src/models.py] *)

(** [rec[k]] for a dictionary; [None] is [KeyError] (or [TypeError] when
    [rec] is no dictionary). *)
Definition py_item (rec : Py.value) (k : string) : option Py.value :=
  match rec with
  | Py.VDict d => Py.assoc k d
  | _ => None
  end.

(** [if k in rec: entry[k] = rec[k]]: the item this adds to the entry. *)
Definition copied_item (rec : Py.value) (k : string) : list (string * Py.value) :=
  match py_item rec k with
  | Some v => [(k, v)]
  | None => []
  end.

(** The entry [export_yaml] makes of one record. *)
Definition export_entry (rec : Py.value) : option Py.value :=
  f ← py_item rec "frame_idx";
  o ← py_item rec "obj_id";
  pts ← Py.get rec "points" (Py.VList []);
  labs ← Py.get rec "labels" (Py.VList []);
  Some (Py.VDict ([("frame_idx"%string, f); ("obj_id"%string, o);
                   ("points"%string, pts); ("labels"%string, labs)]
                  ++ copied_item rec "box" ++ copied_item rec "polygon")).

Definition export_items (models : list (string * AnnotationModel))
  : option (list Py.value) :=
  mapM export_entry (all_records models).

Section ExportYaml.
Context {World : Type}.
(** [yaml.safe_dump] into the opened file: the world afterwards, and the
    text of the exception when one was raised. *)
Variable write_yaml : string → Py.value → World → World * option string.

(** [export_yaml]; [None] would be an exception out of the loop that
    builds the entries, which no [try] covers. *)
Definition export_yaml (yaml_available : bool) (path : string)
    (models : list (string * AnnotationModel)) (w : World)
  : option (World * (bool * string)) :=
  if negb yaml_available
  then Some (w, (false, "PyYAML not installed. Run: pip install pyyaml"%string))
  else
    items ← export_items models;
    match write_yaml path (Py.VDict [("prompts"%string, Py.VList items)]) w with
    | (w', None) => Some (w', (true, "Saved " +:+ path))
    | (w', Some msg) => Some (w', (false, msg))
    end.
End ExportYaml.

(** The entry of an object, as [export_yaml] makes it from the record of
    [to_records]. *)
Definition export_record (e : Z * Z * ObjectAnno) : Py.value :=
  Py.VDict
    ([("frame_idx"%string, Py.VInt e.1.1);
      ("obj_id"%string, Py.VInt e.1.2);
      ("points"%string, Py.of_pairs (points e.2));
      ("labels"%string, Py.of_ints (labels e.2))]
     ++ option_items "box" (has_box e.2) (box_value (box e.2))
     ++ option_items "polygon" (has_poly e.2) (Py.of_pairs (default [] (polygon e.2)))).

(** * Properties *)

Example int_examples :
  Py.int (Py.VStr " 12 ") = Some 12 ∧ Py.int (Py.VStr "1_000") = Some 1000 ∧
  Py.int (Py.VStr "-0") = Some 0 ∧ Py.int (Py.VStr "1__0") = None ∧
  Py.int (Py.VStr "abc") = None ∧ Py.int (Py.VStr "- 1") = None ∧
  Py.int (Py.VStr "007") = Some 7 ∧ Py.int (Py.VStr "1_") = None ∧
  Py.int (Py.VStr "+") = None ∧ Py.int (Py.VBool true) = Some 1 ∧
  Py.int Py.VNone = None ∧
  Py.int (Py.VFloat (S754_finite true 15 (-2))) = Some (-3).
Proof. repeat split; reflexivity. Qed.

Example path_examples :
  stem "a.b.c" = "a.b"%string ∧ suffix "a.b.c" = ".c"%string ∧
  stem ".bashrc" = ".bashrc"%string ∧ suffix "a." = EmptyString ∧
  _numeric_key "a12b345c.png" = 345 ∧ _numeric_key "frame.png" = 0.
Proof. repeat split; reflexivity. Qed.

(** ** Reading the store after a write *)

Section Store.
Implicit Types (m : AnnotationModel) (o : ObjectAnno) (f oid : Z).

Lemma get_object_obj_ref f oid m f' oid' :
  get_object (obj_ref f oid m) f' oid' =
    if decide (f = f' ∧ oid = oid')
    then Some (default new_object (get_object m f oid))
    else get_object m f' oid'.
Proof.
  unfold obj_ref, get_object, _frame, ensure_object; simpl.
  destruct (ann m !! f) as [fr|] eqn:Hf; simpl; rewrite lookup_alter.
  - destruct (decide (f = f')) as [<-|Hne];
      [|by rewrite decide_False by (intros [? ?]; congruence)].
    rewrite Hf; simpl.
    destruct (objects fr !! oid) as [o|] eqn:Ho; simpl.
    + destruct (decide (oid = oid')) as [<-|Hno].
      * by rewrite decide_True, Ho.
      * by rewrite decide_False by (intros [? ?]; congruence).
    + rewrite lookup_insert. destruct (decide (oid = oid')) as [<-|Hno].
      * by rewrite decide_True.
      * by rewrite decide_False by (intros [? ?]; congruence).
  - destruct (decide (f = f')) as [<-|Hne].
    + rewrite lookup_insert_eq, Hf; simpl. rewrite lookup_empty; simpl.
      rewrite lookup_insert. destruct (decide (oid = oid')) as [<-|Hno].
      * by rewrite decide_True.
      * rewrite decide_False by (intros [? ?]; congruence). by rewrite lookup_empty.
    + rewrite decide_False by (intros [? ?]; congruence). by rewrite lookup_insert_ne.
Qed.

Lemma get_object_update_obj f oid g m f' oid' :
  get_object (update_obj f oid g m) f' oid' =
    if decide (f = f' ∧ oid = oid') then g <$> get_object m f oid
    else get_object m f' oid'.
Proof.
  unfold update_obj, get_object; simpl. rewrite lookup_alter.
  destruct (decide (f = f')) as [<-|Hne].
  - destruct (ann m !! f) as [fr|]; simpl.
    + rewrite lookup_alter. destruct (decide (oid = oid')) as [<-|Hno].
      * by rewrite decide_True.
      * by rewrite decide_False by (intros [? ?]; congruence).
    + by case_decide.
  - by rewrite decide_False by (intros [? ?]; congruence).
Qed.

Lemma get_object_with_dirty d m f oid :
  get_object (with_dirty d m) f oid = get_object m f oid.
Proof. done. Qed.

(** Ensuring an object and then changing it, read back. *)
Lemma get_object_modify f oid g m f' oid' :
  get_object (update_obj f oid g (obj_ref f oid m)) f' oid' =
    if decide (f = f' ∧ oid = oid')
    then Some (g (default new_object (get_object m f oid)))
    else get_object m f' oid'.
Proof.
  rewrite get_object_update_obj, !get_object_obj_ref.
  case_decide.
  - by rewrite decide_True.
  - done.
Qed.

Lemma is_frame_annotated_true m f :
  is_frame_annotated m f = true ↔
  ∃ oid o, get_object m f oid = Some o ∧ has_content o = true.
Proof.
  unfold is_frame_annotated, get_object.
  destruct (ann m !! f) as [fr|]; [|split; [done|by intros (?&?&?&?)]].
  rewrite existsb_exists. split.
  - intros [[oid o] [Hin Hc]]. exists oid, o. split; [|done].
    apply elem_of_map_to_list, list_elem_of_In, Hin.
  - intros (oid & o & Hl & Hc). exists (oid, o). split; [|done].
    apply list_elem_of_In, elem_of_map_to_list, Hl.
Qed.

(** Two stores that answer [get_object] alike answer
    [is_frame_annotated] alike. *)
Lemma is_frame_annotated_ext m m' f :
  (∀ oid, has_content <$> get_object m f oid = has_content <$> get_object m' f oid
          ∨ (from_option has_content false (get_object m f oid)
             = from_option has_content false (get_object m' f oid))) →
  is_frame_annotated m f = is_frame_annotated m' f.
Proof.
  intros H. apply eq_true_iff_eq. rewrite !is_frame_annotated_true.
  assert (Hs : ∀ oid, from_option has_content false (get_object m f oid)
               = from_option has_content false (get_object m' f oid)).
  { intros oid. destruct (H oid) as [He|He]; [|done].
    destruct (get_object m f oid), (get_object m' f oid); simpl in *; congruence. }
  split; intros (oid & o & Hl & Hc); specialize (Hs oid); rewrite Hl in Hs; simpl in Hs.
  - destruct (get_object m' f oid) as [o'|] eqn:E; simpl in Hs; [|congruence].
    exists oid, o'. split; congruence.
  - destruct (get_object m f oid) as [o'|] eqn:E; simpl in Hs; [|congruence].
    exists oid, o'. split; congruence.
Qed.
End Store.

(** ** The has-content law *)

Lemma has_box_true o : has_box o = true ↔ valid_box o.
Proof.
  unfold has_box, valid_box. destruct (box o) as [[[[x y] w] h]|].
  - rewrite andb_true_iff, !Z.ltb_lt. split.
    + intros [? ?]. by exists x, y, w, h.
    + intros (? & ? & ? & ? & [= -> -> -> ->] & ? & ?). done.
  - split; [done|]. by intros (? & ? & ? & ? & ? & _).
Qed.

Lemma has_points_true o : has_points o = true ↔ some_point o.
Proof.
  unfold has_points, some_point. rewrite Nat.ltb_lt.
  destruct (points o); simpl; split; intros; (done || lia).
Qed.

Lemma has_poly_true o : has_poly o = true ↔ real_polygon o.
Proof.
  unfold has_poly, real_polygon. destruct (polygon o) as [l|].
  - rewrite Nat.leb_le. split; [by exists l|]. by intros (? & [= ->] & ?).
  - split; [done|]. by intros (? & ? & _).
Qed.

Lemma has_content_true o :
  has_content o = true ↔ valid_box o ∨ some_point o ∨ real_polygon o.
Proof.
  unfold has_content.
  rewrite !orb_true_iff, has_box_true, has_points_true, has_poly_true. tauto.
Qed.

Lemma add_point_mutate oid x y label m :
  add_point oid x y label m = mutate oid (Obj.add_point x y label) m.
Proof. done. Qed.
Lemma set_box_mutate oid x y w h m :
  set_box oid x y w h m = mutate oid (Obj.set_box x y w h) m.
Proof. done. Qed.
Lemma set_polygon_mutate oid pg m :
  set_polygon oid pg m = mutate oid (Obj.set_polygon pg) m.
Proof. done. Qed.
Lemma set_class_mutate oid name m :
  set_class oid name m = mutate oid (Obj.set_class name) m.
Proof. done. Qed.

Lemma index_obj_ref f oid m : index (obj_ref f oid m) = index m.
Proof. unfold obj_ref, _frame; simpl. by destruct (ann m !! f). Qed.

Lemma dirty_obj_ref f oid m : dirty (obj_ref f oid m) = dirty m.
Proof. unfold obj_ref, _frame; simpl. by destruct (ann m !! f). Qed.

Lemma frames_obj_ref f oid m : frames (obj_ref f oid m) = frames m.
Proof. unfold obj_ref, _frame; simpl. by destruct (ann m !! f). Qed.

Lemma index_mutate oid g m : index (mutate oid g m) = index m.
Proof. exact (index_obj_ref (index m) oid m). Qed.

Lemma dirty_mutate oid g m : dirty (mutate oid g m) = true.
Proof. done. Qed.

Lemma get_object_mutate oid g m f oid' :
  get_object (mutate oid g m) f oid' =
    if decide (index m = f ∧ oid = oid')
    then Some (g (default new_object (get_object m (index m) oid)))
    else get_object m f oid'.
Proof. unfold mutate. by rewrite get_object_with_dirty, get_object_modify. Qed.

Lemma set_box_twice_stored oid x y w h x' y' w' h' m :
  get_object (set_box oid x' y' w' h' (set_box oid x y w h m)) (index m) oid =
    Some (with_box (Some (x', y', w', h'))
            (default new_object (get_object m (index m) oid))).
Proof.
  rewrite !set_box_mutate, get_object_mutate, !index_mutate.
  rewrite decide_True by done.
  by rewrite get_object_mutate, decide_True by done.
Qed.

Lemma set_box_twice_other oid x y w h x' y' w' h' m f oid' :
  (f, oid') ≠ (index m, oid) →
  get_object (set_box oid x' y' w' h' (set_box oid x y w h m)) f oid' =
    get_object m f oid'.
Proof.
  intros Hne. rewrite !set_box_mutate, get_object_mutate, !index_mutate.
  rewrite decide_False by (intros [? ?]; congruence).
  by rewrite get_object_mutate, decide_False by (intros [? ?]; congruence).
Qed.

(** C3.  [is_frame_annotated f] holds exactly when some object of frame
    [f] has a box with positive width and height, or a point, or a
    polygon of at least three vertices.  A frame whose objects carry
    nothing but a class name is not annotated.  After [set_box 1 0 0 5 5]
    and then [set_box 1 0 0 0 0] the box [(0, 0, 0, 0)] is stored, it is
    not a valid box, the frame is annotated only through points, polygons
    or the boxes of other objects, and from a fresh store it is not
    annotated. *)
Theorem is_frame_annotated_has_content :
  (∀ m f, is_frame_annotated m f = true ↔
     ∃ oid o, get_object m f oid = Some o ∧
              (valid_box o ∨ some_point o ∨ real_polygon o))
  ∧ (∀ m f,
       (∀ oid o, get_object m f oid = Some o →
          box o = None ∧ points o = [] ∧ polygon o = None) →
       is_frame_annotated m f = false)
  ∧ (∀ fs oid name, is_frame_annotated (set_class oid name (new_model fs)) 0 = false)
  ∧ (∀ m, let m' := set_box 1 0 0 0 0 (set_box 1 0 0 5 5 m) in
       (∃ o, get_object m' (index m) 1 = Some o ∧ box o = Some (0, 0, 0, 0)
             ∧ ¬ valid_box o) ∧
       (is_frame_annotated m' (index m) = true ↔
          ∃ oid o, get_object m' (index m) oid = Some o ∧
                   ((oid ≠ 1 ∧ valid_box o) ∨ some_point o ∨ real_polygon o)))
  ∧ (∀ fs, is_frame_annotated (set_box 1 0 0 0 0 (set_box 1 0 0 5 5 (new_model fs))) 0
           = false).
Proof.
  assert (Hlaw : ∀ m f, is_frame_annotated m f = true ↔
     ∃ oid o, get_object m f oid = Some o ∧
              (valid_box o ∨ some_point o ∨ real_polygon o)).
  { intros m f. rewrite is_frame_annotated_true.
    split; intros (oid & o & Hl & Hc); exists oid, o; split; try done;
      by apply has_content_true. }
  assert (Hzero : ∀ o, box o = Some (0, 0, 0, 0) → ¬ valid_box o).
  { intros o Hb (x & y & w & h & Hb' & Hw & Hh). rewrite Hb in Hb'.
    injection Hb' as <- <- <- <-. lia. }
  split; [exact Hlaw|]. split; [|split; [|split]].
  - intros m f Hall. apply not_true_is_false. rewrite Hlaw.
    intros (oid & o & Hl & Hc). destruct (Hall oid o Hl) as (Hb & Hp & Hg).
    destruct Hc as [(x & y & w & h & Hb' & _)|[Hc|(l & Hg' & _)]]; congruence.
  - intros fs oid name. apply not_true_is_false. rewrite Hlaw.
    intros (oid' & o & Hl & Hc).
    rewrite set_class_mutate, get_object_mutate in Hl. simpl in Hl.
    case_decide as Hd; [|done]. injection Hl as <-.
    destruct Hc as [(x & y & w & h & Hb' & _)|[Hc|(l & Hg' & _)]]; done.
  - intros m m'. subst m'. split.
    + eexists. split; [apply set_box_twice_stored|]. split; [done|].
      by apply Hzero.
    + rewrite Hlaw. split; intros (oid & o & Hl & Hc); exists oid, o; (split; [done|]).
      * destruct Hc as [Hc|Hc]; [left|by right]. split; [|done]. intros ->.
        rewrite set_box_twice_stored in Hl. injection Hl as <-.
        by apply Hzero in Hc.
      * destruct Hc as [[_ Hc]|Hc]; [by left|by right].
  - intros fs. apply not_true_is_false. rewrite Hlaw.
    intros (oid & o & Hl & Hc).
    destruct (decide ((0, oid) = (index (new_model fs), 1))) as [[= ->]|Hne].
    + change 0 with (index (new_model fs)) in Hl at 5.
      rewrite set_box_twice_stored in Hl. injection Hl as <-. simpl in Hc.
      destruct Hc as [Hc|[Hc|(l & Hg' & _)]]; [|done|done].
      by apply Hzero in Hc.
    + change 0 with (index (new_model fs)) in Hl at 5.
      rewrite set_box_twice_other in Hl by done. done.
Qed.

(** ** Point removal *)

Section FindPoint.
Variables x y label : Z.

Lemma find_point_None ps ls i :
  Obj.find_point x y label ps ls i = None ↔
  ∀ j, ¬ (ps !! j = Some (x, y) ∧ ls !! j = Some label).
Proof.
  revert ls i. induction ps as [|[px py] ps IH]; intros ls i; simpl.
  - split; [|done]. by intros _ j [? _].
  - destruct ls as [|lab ls]; [split; [|done]; by intros _ j [_ ?]|].
    destruct ((px =? x) && (py =? y) && (lab =? label)) eqn:E.
    + split; [done|]. intros H. exfalso. apply (H 0%nat).
      apply andb_true_iff in E as [E E3]. apply andb_true_iff in E as [E1 E2].
      apply Z.eqb_eq in E1, E2, E3. by subst.
    + rewrite IH. split.
      * intros H [|j]; simpl; [|apply H]. intros [[= -> ->] [= ->]].
        by rewrite !Z.eqb_refl in E.
      * intros H j. apply (H (S j)).
Qed.

Lemma find_point_Some ps ls i k :
  Obj.find_point x y label ps ls i = Some k →
  ∃ j, k = (i + j)%nat ∧ ps !! j = Some (x, y) ∧ ls !! j = Some label ∧
       ∀ j', (j' < j)%nat → ¬ (ps !! j' = Some (x, y) ∧ ls !! j' = Some label).
Proof.
  revert ls i. induction ps as [|[px py] ps IH]; intros ls i; simpl; [done|].
  destruct ls as [|lab ls]; [done|].
  destruct ((px =? x) && (py =? y) && (lab =? label)) eqn:E.
  - intros [= <-]. exists 0%nat.
    apply andb_true_iff in E as [E E3]. apply andb_true_iff in E as [E1 E2].
    apply Z.eqb_eq in E1, E2, E3. subst.
    repeat split; [lia|]. intros j' Hj'. lia.
  - intros (j & -> & Hp & Hl & Hmin)%IH. exists (S j).
    repeat split; [lia|done|done|]. intros [|j'] Hj'; simpl.
    + intros [[= -> ->] [= ->]]. by rewrite !Z.eqb_refl in E.
    + apply Hmin. lia.
Qed.

Lemma remove_point_miss o :
  (∀ j, ¬ matches_at x y label o j) → Obj.remove_point x y label o = (o, false).
Proof.
  intros H. unfold Obj.remove_point.
  by rewrite (proj2 (find_point_None (points o) (labels o) 0%nat) H).
Qed.

Lemma remove_point_hit o i :
  first_match x y label o i →
  Obj.remove_point x y label o =
    (with_labels (delete i (labels o)) (with_points (delete i (points o)) o), true).
Proof.
  intros [[Hp Hl] Hmin]. unfold Obj.remove_point.
  destruct (Obj.find_point x y label (points o) (labels o) 0) as [k|] eqn:E.
  - apply find_point_Some in E as (j & -> & Hp' & Hl' & Hmin'). simpl.
    assert (j = i) as ->; [|done].
    destruct (Nat.lt_trichotomy j i) as [Hlt|[->|Hlt]]; [|done|].
    + by destruct (Hmin j Hlt).
    + by destruct (Hmin' i Hlt).
  - rewrite find_point_None in E. by destruct (E i).
Qed.

(** A match exists or not, and a first one can be named. *)
Lemma first_match_or_none o :
  (∃ i, first_match x y label o i) ∨ (∀ j, ¬ matches_at x y label o j).
Proof.
  destruct (Obj.find_point x y label (points o) (labels o) 0) as [k|] eqn:E.
  - left. apply find_point_Some in E as (j & -> & Hp & Hl & Hmin).
    exists j. by repeat split.
  - right. intros j. exact (proj1 (find_point_None _ _ _) E j).
Qed.
End FindPoint.

Lemma remove_point_result oid x y label m :
  let obj := default new_object (get_object m (index m) oid) in
  let r := Obj.remove_point x y label obj in
  (remove_point oid x y label m).2 = r.2 ∧
  dirty (remove_point oid x y label m).1 = (r.2 || dirty m) ∧
  index (remove_point oid x y label m).1 = index m ∧
  frames (remove_point oid x y label m).1 = frames m ∧
  ∀ f oid', get_object (remove_point oid x y label m).1 f oid' =
    if decide (index m = f ∧ oid = oid') then Some r.1 else get_object m f oid'.
Proof.
  intros obj r. unfold remove_point. simpl.
  rewrite get_object_obj_ref, decide_True by done. simpl. fold obj. fold r.
  split; [done|]. split.
  { destruct r.2; simpl; [done|]. exact (dirty_obj_ref (index m) oid m). }
  split. { destruct r.2; simpl; exact (index_obj_ref (index m) oid m). }
  split. { destruct r.2; simpl; exact (frames_obj_ref (index m) oid m). }
  intros f oid'.
  assert (H : ∀ m', get_object (if r.2 then with_dirty true m' else m') f oid'
                    = get_object m' f oid') by (intros; by destruct r.2).
  rewrite H, get_object_modify. by case_decide.
Qed.

(** C4, as the claim states it, fails: on a store that has no object 7,
    removing a point of object 7 finds nothing and returns [false], yet
    afterwards [get_object] finds an (empty) object 7 where it found none
    before. *)
Lemma remove_point_miss_creates_object :
  ¬ (∀ m oid x y label,
       (∀ j, ¬ matches_at x y label (default new_object (get_object m (index m) oid)) j) →
       (remove_point oid x y label m).2 = false ∧
       ∀ f oid', get_object (remove_point oid x y label m).1 f oid' = get_object m f oid').
Proof.
  intros H.
  destruct (H (new_model []) 7 1 1 1) as [_ Hsame].
  - intros j [Hp _]. vm_compute in Hp. discriminate.
  - specialize (Hsame 0 7). vm_compute in Hsame. discriminate.
Qed.

(** C4, amended.  Let [obj] be the object [oid] of the current frame, an
    empty object when the store has none.  If no position of [obj] holds
    [(x, y)] with [label], [remove_point] returns [false], leaves the
    dirty flag, the cursor and the frame list as they were, changes no
    object that exists, and answers [is_frame_annotated] as before; its
    one effect is that a missing object [oid] of the current frame now
    exists, empty.  If [i] is the first position that holds [(x, y)] with
    [label], [remove_point] returns [true], sets the dirty flag, deletes
    position [i] from the points and from the labels of [obj] and nothing
    else, and leaves every other object as it was. *)
Theorem remove_point_first_match (m : AnnotationModel) (oid x y label : Z) :
  let obj := default new_object (get_object m (index m) oid) in
  let m' := (remove_point oid x y label m).1 in
  let found := (remove_point oid x y label m).2 in
  ((∀ j, ¬ matches_at x y label obj j) →
     found = false ∧ dirty m' = dirty m ∧ index m' = index m ∧ frames m' = frames m ∧
     (∀ f oid' o, get_object m f oid' = Some o → get_object m' f oid' = Some o) ∧
     (∀ f oid', get_object m f oid' = None →
        get_object m' f oid' =
          if decide (index m = f ∧ oid = oid') then Some new_object else None) ∧
     (∀ f, is_frame_annotated m' f = is_frame_annotated m f))
  ∧ (∀ i, first_match x y label obj i →
       found = true ∧ dirty m' = true ∧ index m' = index m ∧
       get_object m' (index m) oid =
         Some (with_labels (delete i (labels obj)) (with_points (delete i (points obj)) obj)) ∧
       (∀ f oid', (f, oid') ≠ (index m, oid) →
          get_object m' f oid' = get_object m f oid')).
Proof.
  intros obj m' found.
  destruct (remove_point_result oid x y label m) as (Hr & Hd & Hi & Hf & Hg).
  fold obj in Hr, Hd, Hg. fold m' in Hd, Hi, Hf, Hg. fold found in Hr.
  split.
  - intros Hmiss. rewrite (remove_point_miss x y label obj Hmiss) in *. simpl in *.
    assert (Hsome : ∀ f oid' o, get_object m f oid' = Some o →
                                get_object m' f oid' = Some o).
    { intros f oid' o Ho. rewrite Hg. case_decide as Hc; [|done].
      destruct Hc as [<- <-]. unfold obj. by rewrite Ho. }
    assert (Hnone : ∀ f oid', get_object m f oid' = None →
        get_object m' f oid' =
          if decide (index m = f ∧ oid = oid') then Some new_object else None).
    { intros f oid' Ho. rewrite Hg. case_decide as Hc; [|done].
      destruct Hc as [<- <-]. unfold obj. by rewrite Ho. }
    repeat split; try done.
    intros f. apply is_frame_annotated_ext. intros oid'. right.
    destruct (get_object m f oid') as [o|] eqn:Ho.
    + by rewrite (Hsome _ _ _ Ho).
    + rewrite (Hnone _ _ Ho). by case_decide.
  - intros i Hfirst. rewrite (remove_point_hit x y label obj i Hfirst) in *.
    simpl in *. repeat split; try done.
    + by rewrite Hg, decide_True.
    + intros f oid' Hne. rewrite Hg.
      by rewrite decide_False by (intros [? ?]; congruence).
Qed.

(** ** What one record does to the store *)

Lemma ann_ext m m' :
  frames m = frames m' → index m = index m' → dirty m = dirty m' →
  ann m = ann m' → m = m'.
Proof. destruct m, m'; simpl; by intros -> -> -> ->. Qed.

Lemma update_obj_id f oid m : update_obj f oid id m = m.
Proof.
  apply ann_ext; try done. simpl. apply map_eq. intros i.
  rewrite lookup_alter. case_decide as Hi; [subst i|done].
  destruct (ann m !! f) as [[objs]|]; simpl; [|done].
  f_equal. f_equal. apply map_eq. intros j. rewrite lookup_alter.
  case_decide; [subst j|done]. by destruct (objs !! oid).
Qed.

Lemma update_obj_compose f oid g h m :
  update_obj f oid g (update_obj f oid h m) = update_obj f oid (g ∘ h) m.
Proof.
  apply ann_ext; try done. simpl. apply map_eq. intros i.
  rewrite !lookup_alter. case_decide as Hi; [subst i|done].
  rewrite decide_True by done.
  destruct (ann m !! f) as [[objs]|]; simpl; [|done].
  f_equal. f_equal. apply map_eq. intros j. rewrite !lookup_alter.
  case_decide; [subst j|done]. rewrite decide_True by done.
  by destruct (objs !! oid).
Qed.

Lemma load_record_effect rec m :
  (load_record rec m).2 =
    match record_target rec with
    | None => m
    | Some (f, oid) => update_obj f oid (record_update rec) (obj_ref f oid m)
    end.
Proof.
  destruct rec as [| | | | |l|d]; try done.
  unfold load_record, record_target, record_update, record_points, record_labels,
    box_step, polygon_step, class_step.
  unfold mbind, Try_bind, bind, raising, modify, ret. simpl.
  destruct (Py.int (default (Py.VInt 0) (Py.assoc "frame_idx" d))) as [f|]; simpl; [|done].
  destruct (Py.int (default (Py.VInt 1) (Py.assoc "obj_id" d))) as [oid|]; simpl; [|done].
  destruct (Py.int_pairs (Py.or_else _ _)) as [ps|]; simpl;
    [|by rewrite update_obj_id].
  destruct (Py.ints (Py.or_else _ _)) as [ls|]; simpl; [|done].
  rewrite update_obj_compose.
  destruct (Py.is_list_of_len 4 _); simpl;
    [destruct (option_bind _ _ box_of_ints _) as [b|]; simpl; [|done]|];
    (destruct (Py.is_list_of_min_len 3 _); simpl;
      [destruct (Py.int_pairs _) as [pg|]; simpl; [|by rewrite ?update_obj_compose]|]);
    by rewrite !update_obj_compose.
Qed.

Lemma get_object_load_record rec m f' oid' :
  get_object (load_record rec m).2 f' oid' =
    match record_target rec with
    | None => get_object m f' oid'
    | Some (f, oid) =>
        if decide (f = f' ∧ oid = oid')
        then Some (record_update rec (default new_object (get_object m f oid)))
        else get_object m f' oid'
    end.
Proof.
  rewrite load_record_effect. destruct (record_target rec) as [[f oid]|]; [|done].
  apply get_object_modify.
Qed.

Lemma load_records_cons rec recs m :
  load_records (rec :: recs) m = load_records recs (load_record rec m).2.
Proof. done. Qed.

Lemma load_records_app recs recs' m :
  load_records (recs ++ recs') m = load_records recs' (load_records recs m).
Proof. unfold load_records. by rewrite fold_left_app. Qed.

(** ** Points and labels stay parallel *)

Lemma parallel_new_model fs : parallel (new_model fs).
Proof. intros f oid o H. unfold get_object in H. simpl in H. by rewrite lookup_empty in H. Qed.

Lemma parallel_mutate oid g m :
  (∀ o, parallel_obj o → parallel_obj (g o)) → parallel m → parallel (mutate oid g m).
Proof.
  intros Hg Hm f oid' o. rewrite get_object_mutate. case_decide.
  - intros [= <-]. apply Hg. destruct (get_object m (index m) oid) eqn:E; simpl.
    + by eapply Hm.
    + done.
  - apply Hm.
Qed.

Lemma parallel_obj_remove_point x y label o :
  parallel_obj o → parallel_obj (Obj.remove_point x y label o).1.
Proof.
  unfold Obj.remove_point, parallel_obj.
  destruct (Obj.find_point x y label (points o) (labels o) 0) as [k|] eqn:E;
    simpl; [|done].
  apply find_point_Some in E as (j & -> & Hp & Hl & _). simpl. intros Hlen.
  rewrite !length_delete by eauto. lia.
Qed.

Lemma parallel_record_update rec o :
  parallel_record rec = true → parallel_obj o → parallel_obj (record_update rec o).
Proof.
  unfold parallel_record, record_update, parallel_obj.
  destruct (record_points rec) as [ps|]; [|done].
  destruct (record_labels rec) as [ls|]; [|done].
  intros Hlen%Nat.eqb_eq _.
  assert (Hb : ∀ bf, box_step rec = Some bf → ∀ o', points (bf o') = points o'
                                                ∧ labels (bf o') = labels o').
  { unfold box_step. intros bf Hbf o'. destruct (Py.get rec "box" Py.VNone); [|done].
    simpl in Hbf. destruct (Py.is_list_of_len 4 _).
    - destruct (Py.ints _ ≫= box_of_ints); simpl in Hbf; [|done]. by injection Hbf as <-.
    - by injection Hbf as <-. }
  assert (Hp : ∀ pf, polygon_step rec = Some pf → ∀ o', points (pf o') = points o'
                                                  ∧ labels (pf o') = labels o').
  { unfold polygon_step. intros pf Hpf o'.
    destruct (Py.get rec "polygon" Py.VNone); [|done].
    simpl in Hpf. destruct (Py.is_list_of_min_len 3 _).
    - destruct (Py.int_pairs _); simpl in Hpf; [|done]. by injection Hpf as <-.
    - by injection Hpf as <-. }
  destruct (box_step rec) as [bf|]; [|done].
  destruct (polygon_step rec) as [pf|]; simpl.
  - destruct (Hp pf eq_refl (bf (with_labels ls (with_points ps o)))) as [-> ->].
    by destruct (Hb bf eq_refl (with_labels ls (with_points ps o))) as [-> ->].
  - by destruct (Hb bf eq_refl (with_labels ls (with_points ps o))) as [-> ->].
Qed.

Lemma parallel_load_records recs m :
  Forall (λ rec, parallel_record rec = true) recs → parallel m →
  parallel (load_records recs m).
Proof.
  intros Hrecs. revert m. induction Hrecs as [|rec recs Hrec _ IH]; intros m Hm; [done|].
  rewrite load_records_cons. apply IH. intros f' oid' o.
  rewrite get_object_load_record. destruct (record_target rec) as [[f oid]|]; [|apply Hm].
  case_decide; [|apply Hm]. intros [= <-]. apply parallel_record_update; [done|].
  destruct (get_object m f oid) eqn:E; simpl; [by eapply Hm|done].
Qed.

(** C5, as the claim states it, fails for [load_records] on any input: a
    record with one point and no label parses and leaves its object with
    one point and no label. *)
Lemma load_records_breaks_parallel :
  ¬ (∀ recs m, parallel m → parallel (load_records recs m)).
Proof.
  intros H.
  pose (rec := Py.VDict [("frame_idx"%string, Py.VInt 0); ("obj_id"%string, Py.VInt 1);
                         ("points"%string, Py.of_pairs [(1, 2)]);
                         ("labels"%string, Py.of_ints [])]).
  specialize (H [rec] (new_model []) (parallel_new_model [])).
  specialize (H 0 1 (mkObjectAnno None [(1, 2)] [] None Py.VNone)).
  vm_compute in H. by specialize (H eq_refl).
Qed.

(** C5, amended.  In a store where the points and the labels of every
    object are equally long, they are still equally long after
    [add_point], [remove_point], [set_box], [set_polygon], [set_class]
    and [clear_object], and after [load_records] of a list in which every
    record whose points convert has labels that convert to a list of the
    same length.  A fresh store is such a store. *)
Theorem parallel_lengths_preserved (m : AnnotationModel) (Hm : parallel m) :
  (∀ oid x y label, parallel (add_point oid x y label m)) ∧
  (∀ oid x y label, parallel (remove_point oid x y label m).1) ∧
  (∀ oid x y w h, parallel (set_box oid x y w h m)) ∧
  (∀ oid pg, parallel (set_polygon oid pg m)) ∧
  (∀ oid name, parallel (set_class oid name m)) ∧
  (∀ oid, parallel (clear_object oid m)) ∧
  (∀ recs, Forall (λ rec, parallel_record rec = true) recs →
           parallel (load_records recs m)) ∧
  (∀ fs, parallel (new_model fs)).
Proof.
  repeat apply conj.
  - intros oid x y label. rewrite add_point_mutate. apply parallel_mutate; [|done].
    intros o Ho. unfold parallel_obj, Obj.add_point in *. simpl.
    rewrite !length_app, Ho. done.
  - intros oid x y label f oid' o.
    destruct (remove_point_result oid x y label m) as (_ & _ & _ & _ & ->).
    case_decide; [|apply Hm]. intros [= <-]. apply parallel_obj_remove_point.
    destruct (get_object m (index m) oid) eqn:E; simpl; [by eapply Hm|done].
  - intros oid x y w h. rewrite set_box_mutate. by apply parallel_mutate.
  - intros oid pg. rewrite set_polygon_mutate. apply parallel_mutate; [|done].
    intros o Ho. unfold Obj.set_polygon. by destruct pg as [[|? ?]|].
  - intros oid name. rewrite set_class_mutate. by apply parallel_mutate.
  - intros oid f oid' o. unfold clear_object.
    destruct (ann m !! index m) as [fr|] eqn:Hf; [|apply Hm].
    destruct (objects fr !! oid) eqn:Ho; [|apply Hm].
    unfold get_object; simpl. rewrite lookup_insert.
    case_decide as Hi; [subst f; simpl|].
    + rewrite lookup_insert. case_decide; [by intros [= <-]|].
      intros Hl. apply (Hm (index m) oid' o). unfold get_object. by rewrite Hf.
    + apply (Hm f oid' o).
  - intros recs Hrecs. by apply parallel_load_records.
  - apply parallel_new_model.
Qed.

Lemma parallel_lengths_preserved_witness :
  parallel (new_model ["1.jpg"%string]) ∧
  parallel (add_point 1 10 20 1 (new_model ["1.jpg"%string])).
Proof.
  split; [apply parallel_new_model|].
  exact (proj1 (parallel_lengths_preserved (new_model ["1.jpg"%string])
                  (parallel_new_model ["1.jpg"%string])) 1 10 20 1).
Defined.

(** ** Records written by [to_records], read back *)

Lemma int_pair_of_pair p : Py.int_pair (Py.of_pair p) = Some p.
Proof. by destruct p. Qed.

Lemma int_pairs_of_pairs l : Py.int_pairs (Py.of_pairs l) = Some l.
Proof.
  unfold Py.int_pairs, Py.of_pairs; simpl. apply mapM_Some.
  induction l as [|p l IH]; simpl; constructor; [apply int_pair_of_pair|done].
Qed.

Lemma ints_of_ints l : Py.ints (Py.of_ints l) = Some l.
Proof.
  unfold Py.ints, Py.of_ints; simpl. apply mapM_Some.
  induction l as [|z l IH]; simpl; by constructor.
Qed.

Lemma int_pairs_or_else_of_pairs l :
  Py.int_pairs (Py.or_else (Py.of_pairs l) (Py.VList [])) = Some l.
Proof. destruct l; [done|]. apply int_pairs_of_pairs. Qed.

Lemma ints_or_else_of_ints l :
  Py.ints (Py.or_else (Py.of_ints l) (Py.VList [])) = Some l.
Proof. destruct l; [done|]. apply ints_of_ints. Qed.

Section MakeRecord.
Variables (vid : string) (f oid : Z) (o : ObjectAnno).
Let rec := make_record vid f oid o.

Lemma record_target_make : record_target rec = Some (f, oid).
Proof. done. Qed.

Lemma record_points_make : record_points rec = Some (points o).
Proof. unfold record_points. simpl. apply int_pairs_or_else_of_pairs. Qed.

Lemma record_labels_make : record_labels rec = Some (labels o).
Proof. unfold record_labels. simpl. apply ints_or_else_of_ints. Qed.

Lemma box_step_make :
  box_step rec = Some (if has_box o then with_box (box o) else id).
Proof.
  unfold box_step, rec, make_record, has_box.
  destruct (box o) as [[[[x y] w] h]|]; [destruct ((0 <? w) && (0 <? h))|];
    by destruct (Py.truthy (class_name o)), (has_poly o).
Qed.

Lemma get_polygon_make :
  Py.get rec "polygon" Py.VNone =
    Some (if has_poly o then Py.of_pairs (default [] (polygon o)) else Py.VNone).
Proof.
  unfold rec, make_record.
  by destruct (Py.truthy (class_name o)), (has_box o), (has_poly o).
Qed.

Lemma polygon_step_make :
  polygon_step rec = Some (if has_poly o then with_polygon (polygon o) else id).
Proof.
  unfold polygon_step. rewrite get_polygon_make.
  destruct (has_poly o) eqn:E; [|done].
  unfold has_poly in E. destruct (polygon o) as [l|]; [|done].
  destruct l as [|a [|b [|c l]]]; try done.
  pose proof (int_pairs_of_pairs (a :: b :: c :: l)) as H.
  cbn -[Py.int_pairs] in *. by rewrite H.
Qed.

Lemma class_step_make :
  class_step rec =
    with_class (if Py.truthy (class_name o) then class_name o else Py.VNone).
Proof.
  unfold class_step, rec, make_record.
  by destruct (Py.truthy (class_name o)), (has_box o), (has_poly o).
Qed.

Lemma record_update_make b :
  record_update rec b =
    mkObjectAnno (if has_box o then box o else box b) (points o) (labels o)
                 (if has_poly o then polygon o else polygon b)
                 (if Py.truthy (class_name o) then class_name o else Py.VNone).
Proof.
  unfold record_update.
  rewrite record_points_make, record_labels_make, box_step_make,
    polygon_step_make, class_step_make.
  by destruct (has_box o), (has_poly o).
Qed.

Lemma record_update_make_new : record_update rec new_object = stored o.
Proof. rewrite record_update_make. unfold stored. by destruct (has_box o), (has_poly o). Qed.
End MakeRecord.

Lemma fmap_bind_list {A B C} (f : B → C) (g : A → list B) (l : list A) :
  f <$> (l ≫= g) = l ≫= (λ x, f <$> g x).
Proof.
  induction l as [|x l IH]; [done|]. by rewrite !bind_cons, fmap_app, IH.
Qed.

Lemma to_records_entries m vid : to_records m vid = entry_record vid <$> entries m.
Proof.
  unfold to_records, entries. rewrite fmap_bind_list.
  apply list_bind_ext; [|done]. intros [fidx fr]. rewrite fmap_bind_list.
  apply list_bind_ext; [|done]. intros [oid o]. by destruct (has_content o).
Qed.

Lemma elem_of_sorted_items {V} (d : gmap Z V) k v :
  (k, v) ∈ sorted_items d ↔ d !! k = Some v.
Proof.
  unfold sorted_items. rewrite merge_sort_Permutation. apply elem_of_map_to_list.
Qed.

(** The items come by increasing key, as [sorted(d.keys())] gives them. *)
Lemma sorted_items_sorted {V} (d : gmap Z V) : Sorted key_le (sorted_items d).
Proof.
  unfold sorted_items. apply Sorted_merge_sort.
  intros a b. unfold key_le. lia.
Qed.

Lemma NoDup_sorted_items {V} (d : gmap Z V) : NoDup (sorted_items d).
Proof.
  unfold sorted_items. rewrite merge_sort_Permutation. apply NoDup_map_to_list.
Qed.

Lemma elem_of_entries m f oid o :
  (f, oid, o) ∈ entries m ↔ get_object m f oid = Some o ∧ has_content o = true.
Proof.
  unfold entries, get_object. rewrite list_elem_of_bind. split.
  - intros ([f' fr] & Hin & Hfr). apply elem_of_sorted_items in Hfr.
    apply list_elem_of_bind in Hin as ([oid' o'] & Hin & Ho).
    apply elem_of_sorted_items in Ho.
    destruct (has_content o') eqn:Hc; [|by apply elem_of_nil in Hin].
    apply list_elem_of_singleton in Hin. injection Hin as -> -> ->.
    by rewrite Hfr.
  - intros [Hl Hc]. destruct (ann m !! f) as [fr|] eqn:Hfr; [|done].
    exists (f, fr). split; [|by apply elem_of_sorted_items].
    apply list_elem_of_bind. exists (oid, o).
    split; [|by apply elem_of_sorted_items]. rewrite Hc. by apply list_elem_of_singleton.
Qed.

Lemma NoDup_entries m : NoDup (entries m).
Proof.
  unfold entries. apply NoDup_bind; [| |apply NoDup_sorted_items].
  - intros [f1 fr1] [f2 fr2] [[f oid] o] H1 H2 Hy1 Hy2.
    apply elem_of_sorted_items in H1, H2.
    apply list_elem_of_bind in Hy1 as ([oid1 o1] & Hy1 & _).
    apply list_elem_of_bind in Hy2 as ([oid2 o2] & Hy2 & _).
    destruct (has_content o1); [|by apply elem_of_nil in Hy1].
    destruct (has_content o2); [|by apply elem_of_nil in Hy2].
    apply list_elem_of_singleton in Hy1, Hy2. simplify_eq. done.
  - intros [f fr] _. apply NoDup_bind; [| |apply NoDup_sorted_items].
    + intros [oid1 o1] [oid2 o2] [[f' oid] o] H1 H2 Hy1 Hy2.
      destruct (has_content o1); [|by apply elem_of_nil in Hy1].
      destruct (has_content o2); [|by apply elem_of_nil in Hy2].
      apply list_elem_of_singleton in Hy1, Hy2. by simplify_eq.
    + intros [oid o] _. destruct (has_content o); [apply NoDup_singleton|constructor].
Qed.

Lemma NoDup_entries_keys m : NoDup ((λ e : Z * Z * ObjectAnno, e.1) <$> entries m).
Proof.
  apply NoDup_fmap_2_strong; [|apply NoDup_entries].
  intros [[f oid] o] [[f' oid'] o'] [H1 _]%elem_of_entries [H2 _]%elem_of_entries.
  simpl. intros [= <- <-]. congruence.
Qed.

Lemma record_target_entry vid e : record_target (entry_record vid e) = Some e.1.
Proof. by destruct e as [[f oid] o]. Qed.

(** Loading the records of a list of entries whose keys are distinct. *)
Lemma load_entries_other vid (l : list (Z * Z * ObjectAnno)) m f oid :
  (f, oid) ∉ (λ e : Z * Z * ObjectAnno, e.1) <$> l →
  get_object (load_records (entry_record vid <$> l) m) f oid = get_object m f oid.
Proof.
  revert m. induction l as [|[[f0 oid0] o0] l IH]; intros m Hnot; [done|].
  rewrite fmap_cons, load_records_cons, IH by (by apply not_elem_of_cons in Hnot as [_ ?]).
  rewrite get_object_load_record, record_target_entry. simpl.
  rewrite decide_False; [done|].
  intros [-> ->]. apply Hnot. by left.
Qed.

Lemma load_entries_member vid (l : list (Z * Z * ObjectAnno)) m f oid o :
  NoDup ((λ e : Z * Z * ObjectAnno, e.1) <$> l) → (f, oid, o) ∈ l →
  get_object (load_records (entry_record vid <$> l) m) f oid =
    Some (record_update (make_record vid f oid o) (default new_object (get_object m f oid))).
Proof.
  revert m. induction l as [|[[f0 oid0] o0] l IH]; intros m Hnd Hin;
    [by apply elem_of_nil in Hin|].
  rewrite fmap_cons in Hnd. apply NoDup_cons in Hnd as [Hnot Hnd].
  rewrite fmap_cons, load_records_cons.
  apply elem_of_cons in Hin as [[= -> -> ->]|Hin].
  - rewrite load_entries_other by done.
    rewrite get_object_load_record, record_target_entry. simpl.
    by rewrite decide_True.
  - rewrite (IH _ Hnd Hin). do 3 f_equal.
    rewrite get_object_load_record, record_target_entry. simpl.
    rewrite decide_False; [done|].
    intros [-> ->]. apply Hnot. simpl.
    apply (list_elem_of_fmap_2 (λ e : Z * Z * ObjectAnno, e.1) _ _ Hin).
Qed.

Lemma get_object_reload m vid fs f oid :
  get_object (load_records (to_records m vid) (new_model fs)) f oid =
    match get_object m f oid with
    | Some o => if has_content o then Some (stored o) else None
    | None => None
    end.
Proof.
  rewrite to_records_entries.
  destruct (get_object m f oid) as [o|] eqn:Ho;
    [destruct (has_content o) eqn:Hc|].
  - rewrite (load_entries_member vid (entries m) _ f oid o);
      [|apply NoDup_entries_keys|by apply elem_of_entries].
    by rewrite record_update_make_new.
  - rewrite load_entries_other; [done|].
    intros ([[f' oid'] o'] & [= <- <-] & [Ho' Hc']%elem_of_entries)%list_elem_of_fmap.
    congruence.
  - rewrite load_entries_other; [done|].
    intros ([[f' oid'] o'] & [= <- <-] & [Ho' Hc']%elem_of_entries)%list_elem_of_fmap.
    congruence.
Qed.

(** ** The round trip *)

Lemma has_content_stored o : has_content (stored o) = has_content o.
Proof.
  assert (Hb : has_box (stored o) = has_box o).
  { unfold has_box at 1, stored; simpl. destruct (has_box o) eqn:E; [|done].
    exact E. }
  assert (Hp : has_poly (stored o) = has_poly o).
  { unfold has_poly at 1, stored; simpl. destruct (has_poly o) eqn:E; [|done].
    exact E. }
  unfold has_content. by rewrite Hb, Hp.
Qed.

(** C1, as the claim states it, fails: after [add_point 1 10 20 1] and
    [set_box 1 0 0 0 0] the object has the box [(0, 0, 0, 0)], which
    [to_records] does not write, so the reloaded object has no box. *)
Lemma reload_drops_zero_area_box :
  ¬ (∀ m vid, built m → ∀ f oid,
       get_object (load_records (to_records m vid) (new_model (frames m))) f oid
       = get_object m f oid).
Proof.
  intros H.
  specialize (H (set_box 1 0 0 0 0 (add_point 1 10 20 1 (new_model ["1.jpg"%string])))
                "v"%string).
  specialize (H ltac:(repeat constructor) 0 1). vm_compute in H. discriminate.
Qed.

(** C1, amended.  Writing any store with [to_records] and loading the
    records into a fresh store gives a store that answers
    [is_frame_annotated] as the original does on every frame, and in
    which [get_object] finds exactly the objects that had content, each
    with its points and labels, with its box if the box is valid, its
    polygon if it has three vertices or more and its class if the class
    is truthy, and without them otherwise ([stored]).  An object whose
    box is absent or valid, whose polygon is absent or has three vertices
    or more and whose class is absent or truthy is stored as it is. *)
Theorem reload_round_trip (m : AnnotationModel) (vid : string) (fs : list string) :
  let m' := load_records (to_records m vid) (new_model fs) in
  (∀ f oid, get_object m' f oid =
     match get_object m f oid with
     | Some o => if has_content o then Some (stored o) else None
     | None => None
     end)
  ∧ (∀ f, is_frame_annotated m' f = is_frame_annotated m f)
  ∧ (∀ o, points (stored o) = points o ∧ labels (stored o) = labels o ∧
          has_content (stored o) = has_content o)
  ∧ (∀ o, (box o = None ∨ valid_box o) → (polygon o = None ∨ real_polygon o) →
          (class_name o = Py.VNone ∨ Py.truthy (class_name o) = true) →
          stored o = o).
Proof.
  intros m'. split; [intros f oid; apply get_object_reload|].
  split; [|split].
  - intros f. apply is_frame_annotated_ext. intros oid. right.
    unfold m'. rewrite get_object_reload.
    destruct (get_object m f oid) as [o|]; [|done]. simpl.
    destruct (has_content o) eqn:Hc; simpl; [|done]. by rewrite has_content_stored.
  - intros o. repeat split. apply has_content_stored.
  - intros o Hb Hp Hc. destruct o as [b ps ls pg c]. unfold stored; simpl in *.
    f_equal.
    + destruct Hb as [Hb|Hb]; [by rewrite Hb|].
      apply has_box_true in Hb. by rewrite Hb.
    + destruct Hp as [Hp|Hp]; [by rewrite Hp|].
      apply has_poly_true in Hp. by rewrite Hp.
    + destruct Hc as [Hc|Hc]; by rewrite Hc.
Qed.

(** ** The frame ordering key *)

Section Digits.
Implicit Types (c : ascii) (cs cur run pre post : list ascii).









End Digits.





(** ** The segmentation workflow *)

Section Workflow.
Context {Image Mask : Type}.
Variable imread : string → option Image.
Variable predict :
  Image → option (list (Z * Z)) → option (list Z) → option (Z * Z * Z * Z) → Mask.
Variable findContours : Mask → list (list (Z * Z)).
Variable contourArea2 : list (Z * Z) → Z.

(** C8.  When the object selected in the window has no point and no
    valid box, or does not exist, [run_sam2] returns early and the
    window, with every store in it, is what it was: nothing is
    committed and the polygons are untouched. *)
Theorem run_sam2_without_prompt (w : Window) :
  (∀ model obj,
     current_model w = Some model →
     get_object model (index model) (obj_spin w) = Some obj →
     points obj = [] ∧ ¬ valid_box obj) →
  run_sam2 imread predict findContours contourArea2 w = (w, Returned).
Proof.
  intros Hno. unfold run_sam2.
  destruct (current_model w) as [model|]; [|done].
  destruct (sam2 w) as [svc|]; [|done].
  destruct (available svc); [|done]. destruct (cv2 w); [|done]. simpl.
  destruct (get_object model (index model) (obj_spin w)) as [obj|] eqn:Ho; [|done].
  destruct (Hno model obj eq_refl Ho) as [Hp Hb].
  unfold has_points. rewrite Hp. simpl.
  destruct (has_box obj) eqn:E; [|done]. by apply has_box_true in E.
Qed.
End Workflow.

Lemma run_sam2_without_prompt_witness :
  run_sam2 (λ _, Some ()) (λ _ _ _ _, ()) (λ _, [[(1, 1); (2, 2); (3, 3)]]) (λ _, 0)
    window_without_prompt
  = (window_without_prompt, Returned).
Proof.
  apply (run_sam2_without_prompt (λ _, Some ()) (λ _ _ _ _, ())
           (λ _, [[(1, 1); (2, 2); (3, 3)]]) (λ _, 0) window_without_prompt).
  intros model obj Hm Ho. vm_compute in Hm. injection Hm as <-.
  vm_compute in Ho. injection Ho as <-. split; [reflexivity|].
  intros (x & y & w & h & Hb & Hw & Hh). injection Hb as <- <- <- <-. lia.
Defined.

(** ** Where [load_records], [run_sam2] and [save_annotations] part from the
    specification *)

(** C2 does not hold of the code.  After loading [record_with_box] and
    then [record_with_point], the points, the labels and the class of
    the object are those of the later record, but its box and its
    polygon are still those of the earlier one; the later record alone
    gives an object with neither. *)
Theorem load_records_keeps_earlier_box :
  get_object (load_records [record_with_box; record_with_point] (new_model [])) 0 1
  = Some (mkObjectAnno (Some (0, 0, 5, 5)) [(1, 1)] [1]
            (Some [(0, 0); (5, 0); (5, 5)]) Py.VNone)
  ∧ get_object (load_records [record_with_point] (new_model [])) 0 1
    = Some (mkObjectAnno None [(1, 1)] [1] None Py.VNone).
Proof. split; vm_compute; reflexivity. Qed.

(** The general form: a later record without a box list of four items
    and without a polygon list of three or more leaves the box and the
    polygon of the object as the earlier records made them. *)
Lemma record_update_keeps_box rec o :
  record_parses rec = true →
  Py.is_list_of_len 4 (default Py.VNone (Py.get rec "box" Py.VNone)) = false →
  Py.is_list_of_min_len 3 (default Py.VNone (Py.get rec "polygon" Py.VNone)) = false →
  box (record_update rec o) = box o ∧ polygon (record_update rec o) = polygon o.
Proof.
  unfold record_parses, record_update, box_step, polygon_step.
  intros (_ & [ps ->] & [ls ->] & Hb & Hp)%bool_decide_eq_true Hbox Hpoly.
  destruct (Py.get rec "box" Py.VNone) as [bx|]; [|by destruct Hb].
  destruct (Py.get rec "polygon" Py.VNone) as [pg|]; [|by destruct Hp].
  simpl in *. by rewrite Hbox, Hpoly.
Qed.

(** C7 does not hold of the code.  [record_with_bad_labels] fails to
    parse, at its labels, and yet the load has replaced the two points of
    the object by the point of the record, leaving one point beside two
    labels.  The load does go on: the record after it is applied. *)
Theorem load_records_applies_part_of_bad_record :
  record_parses record_with_bad_labels = false
  ∧ (load_record record_with_bad_labels store_with_two_points).1 = None
  ∧ get_object store_with_two_points 0 1
    = Some (mkObjectAnno None [(5, 5); (6, 6)] [1; 0] None Py.VNone)
  ∧ get_object (load_records [record_with_bad_labels] store_with_two_points) 0 1
    = Some (mkObjectAnno None [(1, 2)] [1; 0] None Py.VNone)
  ∧ get_object
      (load_records [record_with_bad_labels; record_with_point] store_with_two_points)
      0 1
    = Some (mkObjectAnno None [(1, 1)] [1] None Py.VNone).
Proof. repeat split; vm_compute; reflexivity. Qed.

(** C9 does not hold of the code.  The mask has a single foreground
    pixel, so the contour finder gives one contour of one vertex and
    [_mask_to_polygon] gives a polygon of one vertex.  [run_sam2] tests
    only that the polygon is not empty: it commits the vertex, and the
    triangle that was committed before is gone. *)
Theorem run_sam2_commits_short_polygon :
  let run := run_sam2 (λ _, Some ()) (λ _ _ _ _, ()) (λ _, [[(3, 4)]]) (λ _, 0) in
  _mask_to_polygon (λ _ : (), [[(3, 4)]]) (λ _, 0) true () = [(3, 4)]
  ∧ (polygon <$> (models window_with_polygon !! "v"%string
                  ≫= λ m, get_object m 0 1))
    = Some (Some [(0, 0); (10, 0); (10, 10)])
  ∧ (run window_with_polygon).2 = Committed [(3, 4)]
  ∧ (polygon <$> (models (run window_with_polygon).1 !! "v"%string
                  ≫= λ m, get_object m 0 1))
    = Some (Some [(3, 4)]).
Proof. repeat split; vm_compute; reflexivity. Qed.

(** C10 does not hold of the code.  The dirty flags are cleared in the
    loop that collects the records, before the file is written: when the
    write fails the exception leaves [save_annotations] with every flag
    already cleared. *)
Theorem save_annotations_clears_dirty_before_write :
  let failing_write := λ (_ : string) (_ : Py.value) (_ : ()), @None () in
  Forall (λ kv, dirty kv.2 = true) unsaved_models
  ∧ (save_annotations failing_write "annotations.json" unsaved_models ()).2 = None
  ∧ Forall (λ kv, dirty kv.2 = false)
      (save_annotations failing_write "annotations.json" unsaved_models ()).1.
Proof. repeat split; repeat constructor. Qed.

(** ** What does hold of them *)

(** X1.  A record whose frame index or object id does not convert, or that
    is not a dictionary, is skipped whole: the load gives what it gives
    without that record. *)
Theorem load_records_skips_unaddressed (rec : Py.value) (recs recs' : list Py.value)
    (m : AnnotationModel) :
  record_target rec = None →
  load_records (recs ++ rec :: recs') m = load_records (recs ++ recs') m.
Proof.
  intros Ht. rewrite !load_records_app, load_records_cons, load_record_effect.
  by rewrite Ht.
Qed.

Lemma load_records_skips_unaddressed_witness :
  load_records [record_with_point; Py.VDict [("obj_id"%string, Py.VStr "abc")]]
    (new_model [])
  = load_records [record_with_point] (new_model []).
Proof.
  exact (load_records_skips_unaddressed (Py.VDict [("obj_id"%string, Py.VStr "abc")])
           [record_with_point] [] (new_model []) eq_refl).
Defined.

Lemma box_step_frame rec bf o :
  box_step rec = Some bf →
  points (bf o) = points o ∧ labels (bf o) = labels o ∧ polygon (bf o) = polygon o
  ∧ class_name (bf o) = class_name o.
Proof.
  unfold box_step. intros Hbf. destruct (Py.get rec "box" Py.VNone); [|done].
  simpl in Hbf. destruct (Py.is_list_of_len 4 _).
  - destruct (Py.ints _ ≫= box_of_ints); simpl in Hbf; [|done]. by injection Hbf as <-.
  - by injection Hbf as <-.
Qed.

Lemma polygon_step_frame rec pf o :
  polygon_step rec = Some pf →
  points (pf o) = points o ∧ labels (pf o) = labels o ∧ box (pf o) = box o
  ∧ class_name (pf o) = class_name o.
Proof.
  unfold polygon_step. intros Hpf. destruct (Py.get rec "polygon" Py.VNone); [|done].
  simpl in Hpf. destruct (Py.is_list_of_min_len 3 _).
  - destruct (Py.int_pairs _); simpl in Hpf; [|done]. by injection Hpf as <-.
  - by injection Hpf as <-.
Qed.

(** X2.  A record that parses replaces the points, the labels and the
    class of its object by its own, the class by [None] when it has none. *)
Theorem load_record_replaces_points_labels_class (rec : Py.value) (f oid : Z)
    (m : AnnotationModel) :
  record_parses rec = true → record_target rec = Some (f, oid) →
  ∃ o, get_object (load_record rec m).2 f oid = Some o
       ∧ record_points rec = Some (points o)
       ∧ record_labels rec = Some (labels o)
       ∧ class_name o = default Py.VNone (Py.get rec "class" Py.VNone).
Proof.
  intros (_ & [ps Hps] & [ls Hls] & [bf Hbf] & [pf Hpf])%bool_decide_eq_true Ht.
  rewrite get_object_load_record, Ht, decide_True by done. eexists. split; [done|].
  unfold record_update. rewrite Hps, Hls, Hbf, Hpf. simpl.
  destruct (polygon_step_frame rec pf
              (bf (with_labels ls (with_points ps
                     (default new_object (get_object m f oid))))) Hpf)
    as (-> & -> & _).
  destruct (box_step_frame rec bf
              (with_labels ls (with_points ps
                 (default new_object (get_object m f oid)))) Hbf)
    as (-> & -> & _).
  done.
Qed.

Lemma load_record_replaces_points_labels_class_witness :
  ∃ o, get_object (load_record record_with_point store_with_two_points).2 0 1 = Some o
       ∧ record_points record_with_point = Some (points o)
       ∧ record_labels record_with_point = Some (labels o)
       ∧ class_name o = default Py.VNone (Py.get record_with_point "class" Py.VNone).
Proof.
  exact (load_record_replaces_points_labels_class record_with_point 0 1
           store_with_two_points eq_refl eq_refl).
Defined.

Lemma bind_concat {A B} (f : A → list B) (l : list A) : l ≫= f = concat (f <$> l).
Proof. induction l as [|x l IH]; [done|]. by rewrite bind_cons, IH. Qed.

(** X3.  Saving hands the writer one payload, the schema version and the
    records of every store one after the other in the order of the
    stores; when the write succeeds, every store comes out with its dirty
    flag cleared and nothing else changed. *)
Theorem save_annotations_flattens {World : Type}
    (write_json : string → Py.value → World → option World)
    (path : string) (models : list (string * AnnotationModel)) (w w' : World) :
  write_json path
    (Py.VDict [("schema_version"%string, Py.VInt 1);
               ("annotations"%string,
                Py.VList (concat ((λ kv, to_records kv.2 kv.1) <$> models)))]) w
  = Some w' →
  let r := save_annotations write_json path models w in
  r.2 = Some w'
  ∧ Forall2 (λ kv' kv, kv'.1 = kv.1 ∧ kv'.2 = with_dirty false kv.2) r.1 models
  ∧ Forall (λ kv, dirty kv.2 = false) r.1.
Proof.
  intros Hw. simpl. unfold save_annotations, all_records; simpl. split; [|split].
  - rewrite bind_concat.
    assert (E : (λ '(vid, model), to_records model vid) <$> models
                = (λ kv, to_records kv.2 kv.1) <$> models).
    { apply list_fmap_ext. by intros ? [vid model]. }
    by rewrite E.
  - apply Forall2_fmap_l, Forall_Forall2_diag, Forall_forall. by intros.
  - apply Forall_fmap, Forall_forall. by intros.
Qed.

Lemma save_annotations_flattens_witness :
  let write := λ (p : string) (v : Py.value) (files : list (string * Py.value)),
                 Some ((p, v) :: files) in
  (save_annotations write "annotations.json" unsaved_models []).2
  = Some [("annotations.json"%string,
           Py.VDict [("schema_version"%string, Py.VInt 1);
                     ("annotations"%string,
                      Py.VList (to_records (add_point 1 10 20 1
                                              (new_model ["1.jpg"%string])) "v"))])]
  ∧ Forall (λ kv, dirty kv.2 = false)
      (save_annotations write "annotations.json" unsaved_models []).1.
Proof.
  intros write.
  destruct (save_annotations_flattens write "annotations.json" unsaved_models [] _
              eq_refl) as (H2 & _ & Hd).
  split; [exact H2|exact Hd].
Defined.

Section WorkflowEmpty.
Context {Image Mask : Type}.
Variable imread : string → option Image.
Variable predict :
  Image → option (list (Z * Z)) → option (list Z) → option (Z * Z * Z * Z) → Mask.
Variable findContours : Mask → list (list (Z * Z)).
Variable contourArea2 : list (Z * Z) → Z.

End WorkflowEmpty.


(** * Further properties of the code *)

(** ** The cursor *)

(** X5.  [clamp_index] gives 0 for a store without frames and otherwise
    an index of the frame list, the given one when it already is one;
    [set_index] stores and returns that index and changes nothing else,
    and the frame at the stored index exists whenever there is a frame. *)
Theorem clamp_index_in_range (m : AnnotationModel) (i : Z) :
  (frames m = [] → clamp_index m i = 0)
  ∧ (frames m ≠ [] → 0 <= clamp_index m i < Z.of_nat (length (frames m)))
  ∧ (0 <= i < Z.of_nat (length (frames m)) → clamp_index m i = i)
  ∧ (i < 0 → clamp_index m i = 0)
  ∧ (Z.of_nat (length (frames m)) <= i → frames m ≠ [] →
     clamp_index m i = Z.of_nat (length (frames m)) - 1)
  ∧ (set_index i m).2 = clamp_index m i
  ∧ (set_index i m).1 = with_index (clamp_index m i) m
  ∧ (frames m ≠ [] → is_Some (py_nth (frames m) (index (set_index i m).1))).
Proof.
  unfold set_index, clamp_index. destruct (frames m) as [|p fs] eqn:E; simpl.
  - repeat split; try done; intros; simpl in *; lia.
  - set (n := Z.pos (Pos.of_succ_nat (length fs))).
    assert (Hn : n = Z.of_nat (length (p :: fs))) by (subst n; simpl; lia).
    repeat split; try done; intros; try lia.
    unfold py_nth.
    destruct (0 <=? 0 `max` (i `min` (Z.of_nat (S (length fs)) - 1))) eqn:Hle; [|lia].
    apply lookup_lt_is_Some. simpl length. lia.
Qed.

(** ** How the mutators compose *)

Lemma delete_snoc_length {A} (l : list A) (x : A) : delete (length l) (l ++ [x]) = l.
Proof. induction l as [|y l IH]; simpl; [done|]. by rewrite IH. Qed.

Lemma remove_point_on oid x y label m obj :
  default new_object (get_object m (index m) oid) = obj →
  (remove_point oid x y label m).2 = (Obj.remove_point x y label obj).2 ∧
  dirty (remove_point oid x y label m).1 = ((Obj.remove_point x y label obj).2 || dirty m) ∧
  index (remove_point oid x y label m).1 = index m ∧
  ∀ f oid', get_object (remove_point oid x y label m).1 f oid' =
    if decide (index m = f ∧ oid = oid')
    then Some (Obj.remove_point x y label obj).1 else get_object m f oid'.
Proof.
  intros <-. destruct (remove_point_result oid x y label m) as (? & ? & ? & _ & ?).
  done.
Qed.

(** X6.  Adding a point and then removing it gives back the object as it
    was, when its points and labels were equally long and none of them
    was that point with that label; the removal reports [true], the
    dirty flag is set and no other object changes.  (An object that did
    not exist before exists afterwards, empty.) *)
Theorem add_then_remove_point (m : AnnotationModel) (oid x y label : Z) :
  let obj := default new_object (get_object m (index m) oid) in
  parallel_obj obj →
  (∀ j, ¬ matches_at x y label obj j) →
  let r := remove_point oid x y label (add_point oid x y label m) in
  r.2 = true ∧ dirty r.1 = true ∧ index r.1 = index m
  ∧ get_object r.1 (index m) oid = Some obj
  ∧ (∀ f oid', (f, oid') ≠ (index m, oid) → get_object r.1 f oid' = get_object m f oid').
Proof.
  intros obj Hpar Hmiss r.
  set (m1 := add_point oid x y label m) in *.
  assert (Hidx : index m1 = index m) by apply index_mutate.
  assert (Hget : ∀ f oid', get_object m1 f oid' =
            if decide (index m = f ∧ oid = oid')
            then Some (Obj.add_point x y label obj) else get_object m f oid').
  { intros f oid'. unfold m1. by rewrite add_point_mutate, get_object_mutate. }
  assert (Hfirst : first_match x y label (Obj.add_point x y label obj)
                     (length (points obj))).
  { split.
    - split; simpl; [apply list_lookup_middle; done|].
      apply list_lookup_middle. by rewrite Hpar.
    - intros j Hj [Hp Hl]. simpl in Hp, Hl.
      rewrite lookup_app_l in Hp by done.
      rewrite lookup_app_l in Hl by (by rewrite <- Hpar).
      by apply (Hmiss j). }
  destruct (remove_point_on oid x y label m1 (Obj.add_point x y label obj))
    as (Hr & Hd & Hi & Hg).
  { by rewrite Hidx, Hget, decide_True. }
  fold r in Hr, Hd, Hi, Hg. rewrite Hidx in Hi, Hg.
  rewrite (remove_point_hit x y label _ _ Hfirst) in Hr, Hd, Hg.
  split; [done|]. split; [done|]. split; [done|]. split.
  - rewrite Hg, decide_True by done. f_equal. simpl.
    rewrite (delete_snoc_length (points obj)). unfold parallel_obj in Hpar.
    rewrite Hpar, delete_snoc_length. by destruct obj.
  - intros f oid' Hne. rewrite Hg, decide_False by (intros [? ?]; congruence).
    by rewrite Hget, decide_False by (intros [? ?]; congruence).
Qed.

Lemma add_then_remove_point_witness :
  (remove_point 1 10 20 1 (add_point 1 10 20 1 (add_point 1 5 5 0 (new_model [])))).2
  = true
  ∧ get_object
      (remove_point 1 10 20 1 (add_point 1 10 20 1 (add_point 1 5 5 0 (new_model [])))).1
      0 1
    = Some (mkObjectAnno None [(5, 5)] [0] None Py.VNone).
Proof.
  destruct (add_then_remove_point (add_point 1 5 5 0 (new_model [])) 1 10 20 1)
    as (H1 & _ & _ & H2 & _).
  - reflexivity.
  - intros [|[|j]] [Hp Hl]; vm_compute in Hp; discriminate.
  - split; [exact H1|exact H2].
Defined.

(** X7.  [clear_object] never creates an entry: on an object that does
    not exist (its frame untouched, or the frame without that object) it
    returns the store itself, dirty flag included.  On an object that
    exists it leaves an empty object in its place, sets the dirty flag,
    and changes no other object; the frame is then annotated exactly when
    another of its objects has content. *)
Theorem clear_object_resets (m : AnnotationModel) (oid : Z) :
  (get_object m (index m) oid = None → clear_object oid m = m)
  ∧ (is_Some (get_object m (index m) oid) →
       get_object (clear_object oid m) (index m) oid = Some new_object
       ∧ dirty (clear_object oid m) = true)
  ∧ index (clear_object oid m) = index m
  ∧ (∀ f oid', (f, oid') ≠ (index m, oid) →
       get_object (clear_object oid m) f oid' = get_object m f oid')
  ∧ (is_frame_annotated (clear_object oid m) (index m) = true ↔
     ∃ oid' o, oid' ≠ oid ∧ get_object m (index m) oid' = Some o ∧ has_content o = true).
Proof.
  assert (Hother : ∀ f oid', (f, oid') ≠ (index m, oid) →
       get_object (clear_object oid m) f oid' = get_object m f oid').
  { intros f oid' Hne. unfold clear_object, get_object.
    destruct (ann m !! index m) as [fr|] eqn:Hf; [|done].
    destruct (objects fr !! oid) eqn:Ho; [|done]. simpl.
    rewrite lookup_insert. case_decide as Hi; [subst f; simpl|done].
    rewrite Hf. apply lookup_insert_ne. congruence. }
  assert (Hsame : get_object m (index m) oid = None → clear_object oid m = m).
  { unfold clear_object, get_object.
    destruct (ann m !! index m) as [fr|]; [|done]. by intros ->. }
  assert (Hhit : is_Some (get_object m (index m) oid) →
       get_object (clear_object oid m) (index m) oid = Some new_object
       ∧ dirty (clear_object oid m) = true).
  { unfold clear_object, get_object.
    destruct (ann m !! index m) as [fr|] eqn:Hf; [|by intros [? ?]].
    intros [o Ho]. rewrite Ho. simpl. rewrite lookup_insert_eq. simpl.
    by rewrite lookup_insert_eq. }
  split; [done|]. split; [done|]. split.
  { unfold clear_object. destruct (ann m !! index m) as [fr|]; [|done].
    by destruct (objects fr !! oid). }
  split; [done|].
  rewrite is_frame_annotated_true. split.
  - intros (oid' & o & Hl & Hc). destruct (decide (oid' = oid)) as [->|Hne].
    + destruct (get_object m (index m) oid) as [o'|] eqn:E.
      * destruct (Hhit (ex_intro _ o' eq_refl)) as [Hn _].
        rewrite Hn in Hl. by injection Hl as <-.
      * rewrite (Hsame eq_refl), E in Hl. done.
    + exists oid', o. rewrite Hother in Hl by congruence. done.
  - intros (oid' & o & Hne & Hl & Hc). exists oid', o.
    by rewrite Hother by congruence.
Qed.

(** ** The order and the stability of the records *)

Lemma sorted_items_strict {V} (d : gmap Z V) :
  StronglySorted (λ a b : Z * V, a.1 < b.1) (sorted_items d).
Proof.
  assert (Hnd : NoDup (sorted_items d).*1).
  { unfold sorted_items. rewrite merge_sort_Permutation. apply NoDup_fst_map_to_list. }
  assert (Hs : StronglySorted key_le (sorted_items d)).
  { apply Sorted_StronglySorted; [|apply sorted_items_sorted].
    intros a b c. unfold key_le. lia. }
  induction Hs as [|a l Hs IH Ha]; [constructor|].
  rewrite fmap_cons in Hnd. apply NoDup_cons in Hnd as [Hnot Hnd].
  constructor; [by apply IH|].
  apply Forall_forall. intros b Hb.
  pose proof (proj1 (Forall_forall _ _) Ha b Hb) as Hle. unfold key_le in Hle.
  destruct (decide (a.1 = b.1)) as [E|E]; [|lia].
  exfalso. apply Hnot. rewrite E. by apply list_elem_of_fmap_2.
Qed.

Lemma inner_entries_sorted f (l : list (Z * ObjectAnno)) :
  StronglySorted (λ a b : Z * ObjectAnno, a.1 < b.1) l →
  StronglySorted entry_lt
    (l ≫= λ '(oid, o), if has_content o then [(f, oid, o)] else []).
Proof.
  induction 1 as [|[oid o] l Hs IH Ha]; [constructor|].
  rewrite bind_cons. apply StronglySorted_app_2; [|by destruct (has_content o);
    repeat constructor|done].
  intros e1 e2 H1 H2. destruct (has_content o); [|by apply elem_of_nil in H1].
  apply list_elem_of_singleton in H1 as ->.
  apply list_elem_of_bind in H2 as ([oid' o'] & H2 & Hin).
  destruct (has_content o'); [|by apply elem_of_nil in H2].
  apply list_elem_of_singleton in H2 as ->.
  right. split; [done|]. simpl.
  exact (proj1 (Forall_forall _ _) Ha _ Hin).
Qed.

Lemma entries_sorted m : StronglySorted entry_lt (entries m).
Proof.
  unfold entries. generalize (sorted_items_strict (ann m)).
  induction 1 as [|[f fr] l Hs IH Ha]; [constructor|].
  rewrite bind_cons. apply StronglySorted_app_2;
    [|apply inner_entries_sorted, sorted_items_strict|done].
  intros e1 e2 H1 H2.
  apply list_elem_of_bind in H1 as ([oid o] & H1 & _).
  destruct (has_content o); [|by apply elem_of_nil in H1].
  apply list_elem_of_singleton in H1 as ->.
  apply list_elem_of_bind in H2 as ([f' fr'] & H2 & Hin).
  apply list_elem_of_bind in H2 as ([oid' o'] & H2 & _).
  destruct (has_content o'); [|by apply elem_of_nil in H2].
  apply list_elem_of_singleton in H2 as ->.
  left. simpl. exact (proj1 (Forall_forall _ _) Ha _ Hin).
Qed.

Lemma make_record_stored vid f oid o :
  make_record vid f oid (stored o) = make_record vid f oid o.
Proof.
  assert (Hb : has_box (stored o) = has_box o).
  { unfold has_box at 1, stored; simpl. by destruct (has_box o) eqn:E. }
  assert (Hp : has_poly (stored o) = has_poly o).
  { unfold has_poly at 1, stored; simpl. by destruct (has_poly o) eqn:E. }
  assert (Hc : option_items "class" (Py.truthy (class_name (stored o)))
                 (class_name (stored o))
               = option_items "class" (Py.truthy (class_name o)) (class_name o)).
  { unfold stored; simpl. destruct (Py.truthy (class_name o)) eqn:Ht; simpl;
      by rewrite ?Ht. }
  assert (Hbv : option_items "box" (has_box o) (box_value (box (stored o)))
                = option_items "box" (has_box o) (box_value (box o))).
  { unfold stored; simpl. by destruct (has_box o). }
  assert (Hpv : option_items "polygon" (has_poly o)
                  (Py.of_pairs (default [] (polygon (stored o))))
                = option_items "polygon" (has_poly o)
                    (Py.of_pairs (default [] (polygon o)))).
  { unfold stored; simpl. by destruct (has_poly o). }
  unfold make_record. by rewrite Hb, Hp, Hc, Hbv, Hpv.
Qed.

Lemma record_parses_make vid f oid o : record_parses (make_record vid f oid o) = true.
Proof.
  apply bool_decide_eq_true.
  rewrite record_points_make, record_labels_make, box_step_make, polygon_step_make.
  repeat split; by eexists.
Qed.

(** X8.  [to_records] writes one record for each object that has
    content and for no other, in strictly increasing order of
    (frame index, object id); each record carries the video id and
    parses without error when it is loaded. *)
Theorem to_records_sorted_well_formed (m : AnnotationModel) (vid : string) :
  ∃ es : list (Z * Z * ObjectAnno),
    to_records m vid = (λ e, make_record vid e.1.1 e.1.2 e.2) <$> es
    ∧ StronglySorted target_lt (fst <$> es)
    ∧ (∀ f oid o, (f, oid, o) ∈ es ↔
         get_object m f oid = Some o ∧ has_content o = true)
    ∧ Forall (λ rec, record_parses rec = true
                     ∧ Py.get rec "video_id" Py.VNone = Some (Py.VStr vid))
        (to_records m vid)
    ∧ mapM record_target (to_records m vid) = Some (fst <$> es).
Proof.
  exists (entries m). rewrite to_records_entries.
  split; [done|]. split.
  { apply (StronglySorted_fmap _ entry_lt target_lt); [done|apply entries_sorted]. }
  split; [intros; apply elem_of_entries|]. split.
  - apply Forall_fmap, Forall_forall. intros [[f oid] o] _.
    split; [apply record_parses_make|done].
  - apply mapM_Some, Forall2_fmap_l, Forall2_fmap_r, Forall_Forall2_diag, Forall_forall.
    intros e _. apply record_target_entry.
Qed.

Lemma entries_reload m vid fs :
  entries (load_records (to_records m vid) (new_model fs))
  = (λ e, (e.1, stored e.2)) <$> entries m.
Proof.
  apply (StronglySorted_unique_strong entry_lt).
  - intros [[f1 o1] x1] [[f2 o2] x2] _ _. unfold entry_lt, target_lt; simpl. lia.
  - apply entries_sorted.
  - apply (StronglySorted_fmap _ entry_lt entry_lt); [done|apply entries_sorted].
  - apply NoDup_Permutation.
    + apply NoDup_entries.
    + apply NoDup_fmap_2_strong; [|apply NoDup_entries].
      intros [[f oid] o] [[f' oid'] o'] [H1 _]%elem_of_entries [H2 _]%elem_of_entries.
      simpl. intros [= <- <- _]. congruence.
    + intros [[f oid] o']. rewrite elem_of_entries, get_object_reload, list_elem_of_fmap.
      split.
      * intros [Hl Hc]. destruct (get_object m f oid) as [o|] eqn:Ho; [|done].
        destruct (has_content o) eqn:Hco; [|done]. injection Hl as <-.
        exists (f, oid, o). split; [done|]. by apply elem_of_entries.
      * intros ([[f0 oid0] o] & Heq & [Ho Hc]%elem_of_entries).
        simpl in Heq. injection Heq as Hf Hoid Ho'. subst f oid o'.
        rewrite Ho, Hc. split; [done|]. by rewrite has_content_stored.
Qed.

(** X9.  Saving is stable: the records of a reloaded store are, one for
    one and in the same order, the records of the store they were
    written from. *)
Theorem to_records_reload_stable (m : AnnotationModel) (vid : string)
    (fs : list string) :
  to_records (load_records (to_records m vid) (new_model fs)) vid = to_records m vid.
Proof.
  rewrite (to_records_entries (load_records _ _)), entries_reload.
  rewrite to_records_entries, <- list_fmap_compose.
  apply list_fmap_ext. intros i [[f oid] o] _. apply make_record_stored.
Qed.

(** ** Reading the annotations file back *)

Lemma group_lookup_add k k' rec d :
  group_lookup k (group_add k' rec d) =
    if decide (k = k') then Some (default [] (group_lookup k d) ++ [rec])
    else group_lookup k d.
Proof.
  induction d as [|[k0 l] d IH]; simpl.
  - by repeat case_decide.
  - destruct (decide (k' = k0)) as [->|Hne]; simpl.
    + by repeat case_decide.
    + rewrite IH. repeat case_decide; congruence.
Qed.

Lemma key_of_str v s : key_of v = Some (KStr s) ↔ v = Py.VStr s.
Proof.
  split; [|by intros ->].
  destruct v as [| b | z | f | s' | l | d0]; simpl; intros H; try discriminate.
  - unfold key_of_float in H. destruct f as [| | |sg m e]; try discriminate.
    destruct (odd_part m) as [q k]. destruct (0 <=? e + k); discriminate.
  - by injection H as ->.
Qed.

Lemma has_video_id_true vid rec :
  has_video_id vid rec = true ↔
  Py.get rec "video_id" (Py.VStr EmptyString) = Some (Py.VStr vid).
Proof.
  unfold has_video_id.
  destruct (Py.get rec "video_id" (Py.VStr EmptyString)) as [[| | | |s| |]|]; try done.
  rewrite String.eqb_eq. split; [by intros ->|by intros [= ->]].
Qed.

Lemma group_record_lookup rec d d' vid :
  group_record rec d = Some d' → vid ≠ EmptyString →
  default [] (group_lookup (KStr vid) d') =
    default [] (group_lookup (KStr vid) d) ++ (if has_video_id vid rec then [rec] else []).
Proof.
  unfold group_record. intros Hstep Hvid.
  destruct (Py.get rec "video_id" (Py.VStr EmptyString)) as [v|] eqn:Hget; [|done].
  simpl in Hstep. destruct (has_video_id vid rec) eqn:Hv.
  - apply has_video_id_true in Hv. rewrite Hget in Hv. injection Hv as ->.
    simpl in Hstep. destruct (String.eqb vid EmptyString) eqn:E;
      [by apply String.eqb_eq in E|].
    simpl in Hstep. injection Hstep as <-. by rewrite group_lookup_add, decide_True.
  - destruct (negb (Py.truthy v)); [injection Hstep as <-; by rewrite app_nil_r|].
    destruct (key_of v) as [k|] eqn:Hk; [|done]. simpl in Hstep. injection Hstep as <-.
    rewrite group_lookup_add, decide_False, app_nil_r; [done|].
    intros <-. apply key_of_str in Hk as ->.
    assert (has_video_id vid rec = true) by (by apply has_video_id_true). congruence.
Qed.

Lemma group_fold_None (records : list Py.value) :
  foldl (λ acc rec, acc ≫= group_record rec) None records = None.
Proof. by induction records. Qed.

Lemma group_fold_lookup (records : list Py.value) d d' vid :
  foldl (λ acc rec, acc ≫= group_record rec) (Some d) records = Some d' →
  vid ≠ EmptyString →
  default [] (group_lookup (KStr vid) d') =
    default [] (group_lookup (KStr vid) d) ++ records_of_video vid records.
Proof.
  revert d. induction records as [|rec records IH]; intros d Hfold Hvid; simpl in *.
  - injection Hfold as <-. by rewrite app_nil_r.
  - destruct (group_record rec d) as [d1|] eqn:Hstep;
      [|by rewrite group_fold_None in Hfold].
    rewrite (IH d1 Hfold Hvid), (group_record_lookup rec d d1 vid Hstep Hvid).
    rewrite <- app_assoc. f_equal. unfold records_of_video. rewrite filter_cons.
    destruct (has_video_id vid rec); by case_decide.
Qed.

Lemma group_fold_no_empty_key (records : list Py.value) d d' :
  foldl (λ acc rec, acc ≫= group_record rec) (Some d) records = Some d' →
  group_lookup (KStr EmptyString) d = None →
  group_lookup (KStr EmptyString) d' = None.
Proof.
  revert d. induction records as [|rec records IH]; intros d Hfold Hd; simpl in *.
  - by injection Hfold as <-.
  - destruct (group_record rec d) as [d1|] eqn:Hstep;
      [|by rewrite group_fold_None in Hfold].
    apply (IH d1 Hfold). unfold group_record in Hstep.
    destruct (Py.get rec "video_id" (Py.VStr EmptyString)) as [v|]; [|done].
    simpl in Hstep. destruct (Py.truthy v) eqn:Ht; simpl in Hstep;
      [|by injection Hstep as <-].
    destruct (key_of v) as [k|] eqn:Hk; [|done]. simpl in Hstep. injection Hstep as <-.
    rewrite group_lookup_add, decide_False; [done|].
    intros <-. apply key_of_str in Hk as ->. done.
Qed.

(** X10.  When [load_annotations] returns, the list it holds under a
    video id is the list of the records of the file that carry that id,
    in the order of the file; records without an id or with an empty one
    are under no key.  A missing file gives no records, and a file that
    is not JSON, or whose top level is not a dictionary, makes the load
    raise. *)
Theorem load_annotations_groups (data : Py.value) (d : list (key * list Py.value)) :
  load_annotations (Document data) = Some d →
  ∃ records,
    Py.get data "annotations" (Py.VList []) ≫= Py.iter = Some records
    ∧ (∀ vid, vid ≠ EmptyString →
         default [] (group_lookup (KStr vid) d) = records_of_video vid records)
    ∧ group_lookup (KStr EmptyString) d = None
    ∧ load_annotations NoFile = Some []
    ∧ load_annotations NotJson = None
    ∧ (∀ l, load_annotations (Document (Py.VList l)) = None).
Proof.
  unfold load_annotations at 1. intros Hload.
  destruct (Py.get data "annotations" (Py.VList []) ≫= Py.iter) as [records|] eqn:E;
    [|done].
  simpl in Hload. exists records. split; [done|]. split; [|split].
  - intros vid Hvid. by rewrite (group_fold_lookup records [] d vid Hload Hvid).
  - by apply (group_fold_no_empty_key records [] d Hload).
  - done.
Qed.

Lemma load_annotations_groups_witness :
  ∃ records,
    Py.get (Py.VDict [("annotations"%string,
                       Py.VList [record_with_box; Py.VDict []; record_with_point])])
      "annotations" (Py.VList []) ≫= Py.iter = Some records
    ∧ (∀ vid, vid ≠ EmptyString →
         default [] (group_lookup (KStr vid)
                       [(KStr "v", [record_with_box; record_with_point])])
         = records_of_video vid records)
    ∧ group_lookup (KStr EmptyString)
        [(KStr "v", [record_with_box; record_with_point])] = None
    ∧ load_annotations NoFile = Some []
    ∧ load_annotations NotJson = None
    ∧ (∀ l, load_annotations (Document (Py.VList l)) = None).
Proof.
  exact (load_annotations_groups
           (Py.VDict [("annotations"%string,
                       Py.VList [record_with_box; Py.VDict []; record_with_point])])
           [(KStr "v", [record_with_box; record_with_point])] eq_refl).
Defined.

Lemma has_video_id_entry vid vid' e :
  has_video_id vid (entry_record vid' e) = String.eqb vid' vid.
Proof. done. Qed.

Lemma records_of_video_to_records vid vid' m :
  records_of_video vid (to_records m vid') =
    if String.eqb vid' vid then to_records m vid' else [].
Proof.
  rewrite to_records_entries. unfold records_of_video.
  induction (entries m) as [|e l IH]; [by destruct (String.eqb vid' vid)|].
  rewrite fmap_cons, filter_cons, IH, has_video_id_entry.
  destruct (String.eqb vid' vid); by case_decide.
Qed.

Lemma records_of_video_app vid l1 l2 :
  records_of_video vid (l1 ++ l2) = records_of_video vid l1 ++ records_of_video vid l2.
Proof. apply filter_app. Qed.

Lemma records_of_video_all vid (models : list (string * AnnotationModel)) m :
  NoDup models.*1 → (vid, m) ∈ models →
  records_of_video vid (all_records models) = to_records m vid.
Proof.
  unfold all_records. induction models as [|[vid' m'] models IH]; intros Hnd Hin;
    [by apply elem_of_nil in Hin|].
  rewrite fmap_cons in Hnd. apply NoDup_cons in Hnd as [Hnot Hnd].
  rewrite bind_cons, records_of_video_app, records_of_video_to_records.
  apply elem_of_cons in Hin as [[= <- <-]|Hin].
  - rewrite String.eqb_refl.
    assert (Hrest : records_of_video vid (models ≫= λ '(v, model), to_records model v) = []).
    { clear IH Hnd. induction models as [|[v m0] models IH]; [done|].
      rewrite bind_cons, records_of_video_app, records_of_video_to_records.
      destruct (String.eqb v vid) eqn:E.
      - apply String.eqb_eq in E as ->. exfalso. apply Hnot. simpl. left.
      - simpl. apply IH. intros H. apply Hnot. simpl. by right. }
    by rewrite Hrest, app_nil_r.
  - destruct (String.eqb vid' vid) eqn:E.
    + apply String.eqb_eq in E as ->. exfalso. apply Hnot.
      by apply (list_elem_of_fmap_2 fst _ _ Hin).
    + simpl. by apply IH.
Qed.

Lemma group_fold_entries (vid : string) (es : list (Z * Z * ObjectAnno)) d :
  vid ≠ EmptyString →
  ∃ d', foldl (λ acc rec, acc ≫= group_record rec) (Some d) (entry_record vid <$> es)
        = Some d'.
Proof.
  intros Hvid. revert d. induction es as [|e es IH]; intros d; [by exists d|].
  simpl. unfold group_record at 2. simpl.
  destruct (String.eqb vid EmptyString) eqn:E; [by apply String.eqb_eq in E|].
  simpl. apply IH.
Qed.

Lemma group_fold_all_records (models : list (string * AnnotationModel)) d :
  Forall (λ kv, kv.1 ≠ EmptyString) models →
  ∃ d', foldl (λ acc rec, acc ≫= group_record rec) (Some d) (all_records models)
        = Some d'.
Proof.
  unfold all_records. intros Hall. revert d.
  induction Hall as [|[vid m] models Hvid _ IH]; intros d; [by exists d|].
  rewrite bind_cons, foldl_app, to_records_entries.
  destruct (group_fold_entries vid (entries m) d Hvid) as [d1 ->]. apply IH.
Qed.

Lemma open_models_lookup (videos : list (string * list string)) d id :
  NoDup videos.*1 →
  open_models videos d !! id =
    (λ fs, load_records (default [] (group_lookup (KStr id) d)) (new_model fs))
      <$> (list_to_map videos : gmap string (list string)) !! id.
Proof.
  unfold open_models. intros Hnd.
  assert (Hgen : ∀ ms : gmap string AnnotationModel,
    foldl (λ models v,
             let model := new_model v.2 in
             let model :=
               match group_lookup (KStr v.1) d with
               | Some recs => load_records recs model
               | None => model
               end in
             <[v.1 := model]> models) ms videos !! id
    = match (list_to_map videos : gmap string (list string)) !! id with
      | Some fs => Some (load_records (default [] (group_lookup (KStr id) d))
                           (new_model fs))
      | None => ms !! id
      end).
  { induction videos as [|[vid fs] videos IH]; intros ms; [done|].
    rewrite fmap_cons in Hnd. apply NoDup_cons in Hnd as [Hnot Hnd].
    simpl. rewrite (IH Hnd). rewrite lookup_insert.
    destruct (decide (vid = id)) as [->|Hne].
    - rewrite (not_elem_of_list_to_map_1 videos id Hnot). rewrite lookup_insert_eq.
      by destruct (group_lookup (KStr id) d).
    - by rewrite lookup_insert_ne by done. }
  rewrite Hgen. by destruct (list_to_map videos !! id).
Qed.

(** X11.  [MainWindow.load_project] gives every video of the project a
    store of its own, loaded with the records filed under the id of that
    video and with no other; records filed under an id that no video
    has reach no store.  (The ids of the videos are distinct.) *)
Theorem open_models_routes_by_id (videos : list (string * list string))
    (d : list (key * list Py.value)) :
  NoDup videos.*1 →
  (∀ id fs, (id, fs) ∈ videos →
     open_models videos d !! id =
       Some (load_records (default [] (group_lookup (KStr id) d)) (new_model fs)))
  ∧ (∀ id, id ∉ videos.*1 → open_models videos d !! id = None)
  ∧ (∀ d', (∀ id, id ∈ videos.*1 →
              default [] (group_lookup (KStr id) d') = default [] (group_lookup (KStr id) d)) →
           open_models videos d' = open_models videos d).
Proof.
  intros Hnd. split; [|split].
  - intros id fs Hin. rewrite open_models_lookup by done.
    by rewrite (elem_of_list_to_map_1 videos id fs Hnd Hin).
  - intros id Hnot. rewrite open_models_lookup by done.
    by rewrite (not_elem_of_list_to_map_1 videos id Hnot).
  - intros d' Hsame. apply map_eq. intros id. rewrite !open_models_lookup by done.
    destruct (list_to_map videos !! id) as [fs|] eqn:E; [|done]. simpl.
    rewrite Hsame; [done|].
    apply elem_of_list_to_map_2 in E. by apply (list_elem_of_fmap_2 fst _ _ E).
Qed.

Lemma open_models_routes_by_id_witness :
  open_models [("v"%string, ["1.jpg"%string])]
    [(KStr "w", [record_with_box]); (KStr "v", [record_with_point])] !! "v"%string
  = Some (load_records [record_with_point] (new_model ["1.jpg"%string])).
Proof.
  refine (proj1 (open_models_routes_by_id [("v"%string, ["1.jpg"%string])]
                   [(KStr "w", [record_with_box]); (KStr "v", [record_with_point])] _)
            "v"%string ["1.jpg"%string] _).
  - repeat constructor. intros H. by apply elem_of_nil in H.
  - by left.
Defined.

(** X12.  Saving and opening again: when the video ids are distinct and
    not empty, [load_annotations] accepts the document that
    [save_annotations] writes and files under each video id exactly the
    records of that video's store, so the store that
    [MainWindow.load_project] then builds for a video is the store
    reloaded from its own records. *)
Theorem save_then_open (models : list (string * AnnotationModel)) :
  NoDup models.*1 → Forall (λ kv, kv.1 ≠ EmptyString) models →
  ∃ d, load_annotations (Document (annotations_document models)) = Some d
       ∧ (∀ vid m, (vid, m) ∈ models →
            default [] (group_lookup (KStr vid) d) = to_records m vid)
       ∧ (∀ vid m, (vid, m) ∈ models →
            open_models ((λ kv, (kv.1, frames kv.2)) <$> models) d !! vid
            = Some (load_records (to_records m vid) (new_model (frames m)))).
Proof.
  intros Hnd Hne.
  destruct (group_fold_all_records models [] Hne) as [d Hd].
  exists d. split; [exact Hd|].
  assert (Hrecs : ∀ vid m, (vid, m) ∈ models →
            default [] (group_lookup (KStr vid) d) = to_records m vid).
  { intros vid m Hin.
    assert (Hvid : vid ≠ EmptyString)
      by exact (proj1 (Forall_forall _ _) Hne (vid, m) Hin).
    rewrite (group_fold_lookup (all_records models) [] d vid Hd Hvid). simpl.
    by apply records_of_video_all. }
  split; [exact Hrecs|].
  intros vid m Hin. rewrite open_models_lookup.
  - assert (Hl : (list_to_map ((λ kv, (kv.1, frames kv.2)) <$> models)
                   : gmap string (list string)) !! vid = Some (frames m)).
    { apply elem_of_list_to_map_1.
      - by rewrite <- list_fmap_compose.
      - by apply (list_elem_of_fmap_2 (λ kv, (kv.1, frames kv.2)) _ _ Hin). }
    rewrite Hl. simpl. by rewrite (Hrecs vid m Hin).
  - by rewrite <- list_fmap_compose.
Qed.

Lemma save_then_open_witness :
  ∃ d, load_annotations (Document (annotations_document unsaved_models)) = Some d
       ∧ (∀ vid m, (vid, m) ∈ unsaved_models →
            default [] (group_lookup (KStr vid) d) = to_records m vid)
       ∧ (∀ vid m, (vid, m) ∈ unsaved_models →
            open_models ((λ kv, (kv.1, frames kv.2)) <$> unsaved_models) d !! vid
            = Some (load_records (to_records m vid) (new_model (frames m)))).
Proof.
  apply (save_then_open unsaved_models).
  - repeat constructor. intros H. by apply elem_of_nil in H.
  - repeat constructor. discriminate.
Defined.

(** ** The project descriptor *)

Lemma mapM_fmap_Some {A B} (f : B → option A) (g : A → B) (l : list A) :
  (∀ x, f (g x) = Some x) → mapM f (g <$> l) = Some l.
Proof.
  intros H. apply mapM_Some. induction l as [|x l IH]; simpl; constructor; auto.
Qed.

Lemma sam2_settings_round_trip env x :
  Sam2Settings.from_dict env (Sam2Settings.to_dict x) = Some x.
Proof. by destruct x as [c w []]. Qed.

Lemma ui_state_round_trip env x : UIState.from_dict env (UIState.to_dict x) = Some x.
Proof. by destruct x as [v i m [] c o]. Qed.

Lemma class_label_round_trip env x :
  ClassLabel.from_dict env (ClassLabel.to_dict x) = Some x.
Proof. by destruct x. Qed.

Lemma video_item_round_trip env x :
  VideoItem.from_dict env (VideoItem.to_dict x) = Some x.
Proof. by destruct x. Qed.

(** X13.  A project written with [to_dict] is read back by [from_dict]
    as the same project, videos, classes, interface state and
    segmentation settings included, under whatever root it is read; its
    two paths must be in the form [Path] keeps them in. *)
Theorem project_round_trip (env : Env) (root : string) (p : Project.t) :
  normal_paths env p →
  Project.from_dict env root (Project.to_dict p) = Some (Project.with_root root p).
Proof.
  intros [Hf Ha]. destruct p as [r n c l fr ap vs cs ui sm]. simpl in Hf, Ha.
  unfold Project.from_dict, Project.to_dict, Project.with_root.
  cbn -[UIState.from_dict UIState.to_dict Sam2Settings.from_dict Sam2Settings.to_dict
        mapM].
  rewrite Hf, Ha.
  rewrite (mapM_fmap_Some _ _ vs (video_item_round_trip env)).
  rewrite (mapM_fmap_Some _ _ cs (class_label_round_trip env)).
  cbn -[UIState.from_dict UIState.to_dict Sam2Settings.from_dict Sam2Settings.to_dict].
  rewrite ui_state_round_trip.
  cbn -[Sam2Settings.from_dict Sam2Settings.to_dict].
  by rewrite sam2_settings_round_trip.
Qed.

Lemma project_round_trip_witness :
  Project.from_dict demo_env "/elsewhere" (Project.to_dict demo_project)
  = Some (Project.with_root "/elsewhere" demo_project).
Proof.
  apply (project_round_trip demo_env "/elsewhere" demo_project). by split.
Defined.




(** X15.  A project saved with [save_project] loads back without a
    warning as the project that was saved, but for the time it was last
    opened, which is the time of the load; its class list must not be
    empty and its two paths must be in the form [Path] keeps them in. *)
Theorem save_then_load_project (env : Env) (now : string) (p : Project.t) :
  normal_paths env p → Project.classes p ≠ [] →
  load_project env (Project.root p) (Document (save_project_document now p))
  = Loaded (Project.with_last_opened (now_loaded env) p) EmptyString.
Proof.
  intros Hn Hc. unfold load_project, save_project_document.
  rewrite project_round_trip by (by destruct p).
  destruct p as [r n c l fr ap vs cs ui sm]. simpl in *.
  unfold Project.set_default_classes, Project.with_last_opened. simpl.
  by destruct cs.
Qed.

Lemma save_then_load_project_witness :
  load_project demo_env "/work/demo"
    (Document (save_project_document "2024-01-01T12:00:00+00:00" demo_project))
  = Loaded (Project.with_last_opened "2024-01-02T00:00:00+00:00" demo_project)
      EmptyString.
Proof.
  apply (save_then_load_project demo_env "2024-01-01T12:00:00+00:00" demo_project);
    [by split|discriminate].
Defined.

(** ** Importing videos *)

Lemma sub_unsafe_safe in_run cs :
  Forall (λ c, is_safe_char c = true) (sub_unsafe in_run cs).
Proof.
  revert in_run. induction cs as [|c cs IH]; intros in_run; simpl; [constructor|].
  destruct (is_safe_char c) eqn:E; [by constructor|].
  destruct in_run; [apply IH|]. constructor; [done|apply IH].
Qed.

Lemma sub_unsafe_id cs :
  Forall (λ c, is_safe_char c = true) cs → sub_unsafe false cs = cs.
Proof. induction 1 as [|c cs Hc _ IH]; simpl; [done|]. by rewrite Hc, IH. Qed.

Lemma safe_not_space c : is_safe_char c = true → is_strip_space c = false.
Proof.
  unfold is_safe_char, is_strip_space. intros H.
  repeat match type of H with
         | (_ || _) = true => apply orb_true_iff in H as [H|H]
         | (_ && _) = true => apply andb_true_iff in H as [H ?]
         end;
    repeat match goal with
           | H : (_ <=? _)%nat = true |- _ => apply Nat.leb_le in H
           | H : (_ =? _)%nat = true |- _ => apply Nat.eqb_eq in H
           end;
    apply orb_false_iff; split; apply andb_false_iff;
    rewrite !Nat.leb_gt; lia.
Qed.

Lemma strip_str_safe cs :
  Forall (λ c, is_safe_char c = true) cs → strip_str cs = cs.
Proof.
  intros Hall. unfold strip_str. destruct cs as [|c cs]; [done|].
  assert (Hl : ∀ d ds, is_safe_char d = true → lstrip_str (d :: ds) = d :: ds).
  { intros d ds Hd. simpl. by rewrite (safe_not_space d Hd). }
  rewrite Hl by (by inversion Hall).
  assert (Hrev : Forall (λ c, is_safe_char c = true) (rev (c :: cs))).
  { apply Forall_forall. intros x Hx. apply list_elem_of_In, in_rev in Hx.
    by apply (proj1 (Forall_forall _ _) Hall), list_elem_of_In. }
  destruct (rev (c :: cs)) as [|d ds] eqn:E.
  - by apply (f_equal (@length _)) in E; rewrite length_rev in E.
  - rewrite Hl by (by inversion Hrev). by rewrite <- E, rev_involutive.
Qed.

(** X16.  The directory name [_safe_stem] makes for a video is never
    empty and is made of letters, digits, dots, underscores and hyphens
    only; a stem that already is such a name is kept as it is. *)
Theorem safe_stem_is_safe (path : string) :
  _safe_stem path ≠ EmptyString
  ∧ Forall (λ c, is_safe_char c = true) (Py.chars (_safe_stem path))
  ∧ (Py.chars (stem path) ≠ [] →
     Forall (λ c, is_safe_char c = true) (Py.chars (stem path)) →
     _safe_stem path = stem path).
Proof.
  unfold _safe_stem, Py.chars. split; [|split].
  - destruct (sub_unsafe false _) as [|c cs]; done.
  - pose proof (sub_unsafe_safe false (strip_str (list_ascii_of_string (stem path)))) as H.
    destruct (sub_unsafe false _) as [|c cs]; [by repeat constructor|].
    by rewrite list_ascii_of_string_of_list_ascii.
  - intros Hne Hall. rewrite strip_str_safe, sub_unsafe_id by done.
    destruct (list_ascii_of_string (stem path)) as [|c cs] eqn:E; [done|].
    by rewrite <- E, string_of_list_ascii_of_string.
Qed.

Lemma safe_stem_is_safe_witness : _safe_stem "clip-01.v2.mp4" = "clip-01.v2"%string.
Proof.
  apply (proj2 (proj2 (safe_stem_is_safe "clip-01.v2.mp4"))).
  - discriminate.
  - repeat constructor.
Defined.

Lemma append_inj_l (s a b : string) : s +:+ a = s +:+ b → a = b.
Proof. induction s as [|c s IH]; simpl; [done|]. intros [= H]. by apply IH. Qed.

Lemma numbered_inj base i j : numbered base i = numbered base j → i = j.
Proof.
  unfold numbered. intros H%append_inj_l.
  change (String "_" (pretty i) = String "_" (pretty j)) in H. injection H as H.
  by apply (inj pretty) in H.
Qed.

Lemma unique_from_None existing base fuel i :
  unique_from existing base fuel i = None →
  ∀ k, (k < fuel)%nat → numbered base (i + k) ∈ existing.
Proof.
  revert i. induction fuel as [|fuel IH]; intros i Hn k Hk; [lia|].
  simpl in Hn. case_decide as Hin; [|done].
  destruct k as [|k]; [by rewrite Nat.add_0_r|].
  replace (i + S k)%nat with (S i + k)%nat by lia. apply (IH (S i) Hn). lia.
Qed.

Lemma unique_from_Some existing base fuel i cand :
  unique_from existing base fuel i = Some cand →
  ∃ k, (k < fuel)%nat ∧ cand = numbered base (i + k) ∧ (cand ∉ existing)
       ∧ ∀ j, (j < k)%nat → numbered base (i + j) ∈ existing.
Proof.
  revert i. induction fuel as [|fuel IH]; intros i Hs; [done|].
  simpl in Hs. case_decide as Hin.
  - destruct (IH (S i) Hs) as (k & Hk & -> & Hc & Hj). exists (S k).
    split; [lia|]. split; [f_equal; lia|]. split; [done|].
    intros [|j] Hlt; [by rewrite Nat.add_0_r|].
    replace (i + S j)%nat with (S i + j)%nat by lia. apply Hj. lia.
  - injection Hs as <-. exists 0%nat. rewrite Nat.add_0_r.
    repeat split; [lia|done|]. intros j Hj. lia.
Qed.

Lemma unique_from_more_fuel existing base fuel fuel' i cand :
  unique_from existing base fuel i = Some cand → (fuel <= fuel')%nat →
  unique_from existing base fuel' i = Some cand.
Proof.
  revert fuel' i. induction fuel as [|fuel IH]; intros fuel' i Hs Hle; [done|].
  destruct fuel' as [|fuel']; [lia|]. simpl in *.
  case_decide; [|done]. apply IH; [done|lia].
Qed.

(** As many different numbered names as the set has elements cannot all
    be in the set. *)
Lemma numbered_not_all_exist (existing : gset string) base fuel i :
  (∀ k, (k < fuel)%nat → numbered base (i + k) ∈ existing) →
  (fuel <= size existing)%nat.
Proof.
  intros Hall.
  set (l := (λ k, numbered base (i + k)) <$> seq 0 fuel).
  assert (Hnd : NoDup l).
  { apply NoDup_fmap_2; [|apply NoDup_seq].
    intros a b H%numbered_inj. lia. }
  assert (Hsub : (list_to_set l : gset string) ⊆ existing).
  { intros x Hx. apply elem_of_list_to_set, list_elem_of_fmap in Hx as (k & -> & Hk).
    apply elem_of_seq in Hk. apply Hall. lia. }
  apply subseteq_size in Hsub. rewrite size_list_to_set in Hsub by done.
  unfold l in Hsub. by rewrite length_fmap, length_seq in Hsub.
Qed.

(** X17.  [_unique_dir] always ends, within one turn more than there
    are names under the root, and the name it returns does not exist:
    the base name itself when that is free, otherwise the base name with
    the least number from 1 on that gives a free name. *)
Theorem unique_dir_is_fresh (existing : gset string) (base : string) :
  ∃ cand,
    (∀ fuel, (size existing < fuel)%nat → _unique_dir existing base fuel = Some cand)
    ∧ (cand ∉ existing)
    ∧ (base ∉ existing → cand = base)
    ∧ (base ∈ existing →
       ∃ i, (1 <= i)%nat ∧ cand = numbered base i
            ∧ ∀ j, (1 <= j < i)%nat → numbered base j ∈ existing).
Proof.
  unfold _unique_dir. destruct (decide (base ∈ existing)) as [Hin|Hnot].
  - destruct (unique_from existing base (S (size existing)) 1) as [cand|] eqn:E.
    + exists cand. apply unique_from_Some in E as Hs.
      destruct Hs as (k & Hk & -> & Hc & Hj).
      split; [|split; [done|split; [done|]]].
      * intros fuel Hf. apply (unique_from_more_fuel _ _ _ _ _ _ E). lia.
      * intros _. exists (1 + k)%nat. split; [lia|]. split; [done|].
        intros j Hj'. replace j with (1 + (j - 1))%nat by lia. apply Hj. lia.
    + pose proof (numbered_not_all_exist existing base _ 1
                    (unique_from_None _ _ _ _ E)). lia.
  - exists base. repeat split; try done.
Qed.

Section ImportLoop.
Variable extract : string → string → extraction.

Lemma errors_of_app evs evs' : errors_of (evs ++ evs') = (errors_of evs + errors_of evs')%nat.
Proof. unfold errors_of. by rewrite filter_app, length_app. Qed.

(** One video: the turn ends, the names under the root only grow, and
    either an error is reported and no result is added, or one result is
    added for that video, in a directory that did not exist before. *)
Lemma import_one_spec total st idx video :
  ∃ st', import_one extract total st idx video = Some st'
    ∧ existing st ⊆ existing st'
    ∧ (∃ msg, last (events st') = Some (Progress msg idx total))
    ∧ ((results st' = results st ∧ errors_of (events st') = S (errors_of (events st)))
       ∨ (∃ r, results st' = results st ++ [r]
               ∧ VideoImportResult.source_path r = video
               ∧ (VideoImportResult.frames_dir r ∉ existing st)
               ∧ VideoImportResult.frames_dir r ∈ existing st'
               ∧ errors_of (events st') = errors_of (events st))).
Proof.
  unfold import_one.
  destruct (unique_dir_is_fresh (existing st) (_safe_stem video))
    as (cand & Hfuel & Hfresh & _).
  rewrite (Hfuel (S (size (existing st)))) by lia. simpl.
  destruct (extract video cand) as [msg|msg|listing fps]; eexists; (split; [done|]); simpl.
  - split; [done|]. split; [eexists; by rewrite last_app|].
    left. split; [done|]. rewrite !errors_of_app. unfold errors_of at 2 3; simpl. lia.
  - split; [set_solver|]. split; [eexists; by rewrite last_app|].
    left. split; [done|]. rewrite !errors_of_app. unfold errors_of at 2 3; simpl. lia.
  - split; [set_solver|]. split; [eexists; by rewrite last_app|].
    right. eexists. split; [done|]. simpl. split; [done|]. split; [done|].
    split; [set_solver|]. rewrite !errors_of_app. unfold errors_of at 2 3; simpl. lia.
Qed.

Lemma import_loop_spec total videos : ∀ st idx,
  (∀ r, r ∈ results st → VideoImportResult.frames_dir r ∈ existing st) →
  NoDup (VideoImportResult.frames_dir <$> results st) →
  ∃ st' new,
    import_loop extract total st idx videos = Some st'
    ∧ results st' = results st ++ new
    ∧ existing st ⊆ existing st'
    ∧ (∀ r, r ∈ results st' → VideoImportResult.frames_dir r ∈ existing st')
    ∧ NoDup (VideoImportResult.frames_dir <$> results st')
    ∧ (∀ r, r ∈ new → VideoImportResult.frames_dir r ∉ existing st)
    ∧ (VideoImportResult.source_path <$> new) `sublist_of` videos
    ∧ (length new + errors_of (events st') = errors_of (events st) + length videos)%nat
    ∧ (videos ≠ [] →
       ∃ msg, last (events st') = Some (Progress msg (idx + length videos - 1) total)).
Proof.
  induction videos as [|video videos IH]; intros st idx Hin Hnd.
  - exists st, []. simpl. rewrite app_nil_r.
    repeat split; try done; try lia. intros r Hr. by apply elem_of_nil in Hr.
  - destruct (import_one_spec total st idx video) as (st1 & Hone & Hsub & Hlast & Hcase).
    simpl. rewrite Hone. simpl.
    assert (Hin1 : ∀ r, r ∈ results st1 → VideoImportResult.frames_dir r ∈ existing st1).
    { destruct Hcase as [[Hr _]|(r0 & Hr & _ & _ & Hr0 & _)]; rewrite Hr; intros r Hel.
      - apply Hsub, Hin, Hel.
      - apply elem_of_app in Hel as [Hel|Hel%list_elem_of_singleton].
        + apply Hsub, Hin, Hel.
        + by subst. }
    assert (Hnd1 : NoDup (VideoImportResult.frames_dir <$> results st1)).
    { destruct Hcase as [[Hr _]|(r0 & Hr & _ & Hfresh & _)]; rewrite Hr; [done|].
      rewrite fmap_app. apply NoDup_app. split; [done|]. split; [|apply NoDup_singleton].
      intros d (r & -> & Hel)%list_elem_of_fmap Hd. apply list_elem_of_singleton in Hd.
      apply Hfresh. rewrite <- Hd. by apply Hin. }
    destruct (IH st1 (S idx) Hin1 Hnd1)
      as (st' & new & Hloop & Hres & Hsub' & Hin' & Hnd' & Hfresh' & Hsl & Hcount & Hlast').
    assert (Hfinal : ∃ msg, last (events st') =
              Some (Progress msg (idx + length (video :: videos) - 1) total)).
    { destruct videos as [|v vs].
      - simpl in Hloop. injection Hloop as <-. destruct Hlast as [msg Hl].
        exists msg. rewrite Hl. simpl. do 2 f_equal. lia.
      - destruct (Hlast' ltac:(done)) as [msg Hl]. exists msg. rewrite Hl.
        simpl. do 2 f_equal. lia. }
    destruct Hcase as [[Hr He]|(r0 & Hr & Hsrc & Hfresh & Hr0 & He)].
    + exists st', new. rewrite Hloop, Hres, Hr.
      split; [done|]. split; [done|]. split; [by etrans|].
      split; [by rewrite <- Hr, <- Hres|]. split; [by rewrite <- Hr, <- Hres|].
      split; [intros r Hel Hex; apply (Hfresh' r Hel); by apply Hsub|].
      split; [by apply sublist_cons|]. split; [simpl; lia|done].
    + exists st', (r0 :: new). rewrite Hloop, Hres, Hr, <- app_assoc.
      split; [done|]. split; [done|]. split; [by etrans|].
      split; [by rewrite (app_assoc _ [r0] new), <- Hr, <- Hres|].
      split; [by rewrite (app_assoc _ [r0] new), <- Hr, <- Hres|].
      split.
      { intros r Hel. apply elem_of_cons in Hel as [->|Hel]; [done|].
        intros Hex. apply (Hfresh' r Hel). by apply Hsub. }
      split; [rewrite fmap_cons, Hsrc; by apply sublist_skip|].
      split; [simpl; lia|done].
Qed.

(** X18.  [run] goes through every video whatever fails on the way: it
    always ends, each video gives either one result or one [error]
    signal, the results come in the order of the videos, no two results
    share a frames directory and none uses a directory that existed
    before, and the last signal reports every video as done. *)
Theorem run_import_best_effort (existing0 : gset string) (videos : list string) :
  ∃ st,
    run_import extract existing0 videos = Some st
    ∧ NoDup (VideoImportResult.frames_dir <$> results st)
    ∧ (∀ r, r ∈ results st → VideoImportResult.frames_dir r ∉ existing0)
    ∧ (VideoImportResult.source_path <$> results st) `sublist_of` videos
    ∧ (length (results st) + errors_of (events st) = length videos)%nat
    ∧ (videos ≠ [] →
       ∃ msg, last (events st) = Some (Progress msg (length videos) (length videos))).
Proof.
  unfold run_import.
  destruct (import_loop_spec (length videos) videos (mkImport existing0 [] []) 1)
    as (st & new & Hloop & Hres & _ & _ & Hnd & Hfresh & Hsl & Hcount & Hlast).
  { intros r Hr. by apply elem_of_nil in Hr. }
  { constructor. }
  simpl in Hres, Hfresh, Hcount. exists st. rewrite Hres.
  repeat split; try done.
  - by rewrite <- Hres.
  - intros Hne. destruct (Hlast Hne) as [msg Hl]. exists msg. rewrite Hl.
    do 2 f_equal. lia.
Qed.
End ImportLoop.

(** ** The YAML export *)

Lemma export_entry_record vid e :
  export_entry (entry_record vid e) = Some (export_record e).
Proof.
  destruct e as [[f oid] o]. unfold entry_record, make_record, export_record. simpl.
  by destruct (Py.truthy (class_name o)), (has_box o), (has_poly o).
Qed.

Lemma export_items_entries (models : list (string * AnnotationModel)) :
  export_items models = Some (models ≫= λ kv, export_record <$> entries kv.2).
Proof.
  unfold export_items, all_records. apply mapM_Some.
  induction models as [|[vid m] models IH]; [constructor|].
  rewrite !bind_cons. apply Forall2_app; [|done].
  rewrite to_records_entries. simpl.
  apply Forall2_fmap_l, Forall2_fmap_r, Forall_Forall2_diag, Forall_forall.
  intros e _. apply export_entry_record.
Qed.

(** X19.  [export_yaml] never raises.  Without the YAML library it
    touches nothing and answers [False] with the hint to install it;
    otherwise it hands the writer one document, [prompts] with one entry
    for each record that saving would write, in the same order, and
    answers [True] with the path, or [False] with the text of the
    writer's exception. *)
Theorem export_yaml_outcomes {World : Type}
    (write_yaml : string → Py.value → World → World * option string)
    (yaml_available : bool) (path : string)
    (models : list (string * AnnotationModel)) (w : World) :
  ∃ items,
    export_items models = Some items
    ∧ length items = length (all_records models)
    ∧ export_yaml write_yaml yaml_available path models w =
        Some (if yaml_available
              then match write_yaml path (Py.VDict [("prompts"%string, Py.VList items)]) w
                   with
                   | (w', None) => (w', (true, "Saved " +:+ path))
                   | (w', Some msg) => (w', (false, msg))
                   end
              else (w, (false, "PyYAML not installed. Run: pip install pyyaml"%string))).
Proof.
  eexists. split; [apply export_items_entries|]. split.
  - assert (H := export_items_entries models). unfold export_items in H.
    symmetry. by apply (length_mapM _ _ _ H).
  - unfold export_yaml. destruct yaml_available; simpl; [|done].
    rewrite export_items_entries. simpl. by destruct (write_yaml _ _ w) as [w' [msg|]].
Qed.

Section ExportRecord.
Variable e : Z * Z * ObjectAnno.
Let rec := export_record e.

Lemma record_target_export : record_target rec = Some e.1.
Proof. by destruct e as [[f oid] o]. Qed.

Lemma record_points_export : record_points rec = Some (points e.2).
Proof. unfold record_points. simpl. apply int_pairs_or_else_of_pairs. Qed.

Lemma record_labels_export : record_labels rec = Some (labels e.2).
Proof. unfold record_labels. simpl. apply ints_or_else_of_ints. Qed.

Lemma box_step_export :
  box_step rec = Some (if has_box e.2 then with_box (box e.2) else id).
Proof.
  unfold box_step, rec, export_record, has_box.
  destruct (box e.2) as [[[[x y] w] h]|]; [destruct ((0 <? w) && (0 <? h))|];
    by destruct (has_poly e.2).
Qed.

Lemma get_polygon_export :
  Py.get rec "polygon" Py.VNone =
    Some (if has_poly e.2 then Py.of_pairs (default [] (polygon e.2)) else Py.VNone).
Proof. unfold rec, export_record. by destruct (has_box e.2), (has_poly e.2). Qed.

Lemma polygon_step_export :
  polygon_step rec = Some (if has_poly e.2 then with_polygon (polygon e.2) else id).
Proof.
  unfold polygon_step. rewrite get_polygon_export.
  destruct (has_poly e.2) eqn:E; [|done].
  unfold has_poly in E. destruct (polygon e.2) as [l|]; [|done].
  destruct l as [|a [|b [|c l]]]; try done.
  pose proof (int_pairs_of_pairs (a :: b :: c :: l)) as H.
  cbn -[Py.int_pairs] in *. by rewrite H.
Qed.

Lemma class_step_export : class_step rec = with_class Py.VNone.
Proof. unfold class_step, rec, export_record. by destruct (has_box e.2), (has_poly e.2). Qed.

Lemma record_update_export_new :
  record_update rec new_object = with_class Py.VNone (stored e.2).
Proof.
  unfold record_update.
  rewrite record_points_export, record_labels_export, box_step_export,
    polygon_step_export, class_step_export.
  unfold stored. by destruct (has_box e.2), (has_poly e.2).
Qed.
End ExportRecord.

Lemma load_export_other (l : list (Z * Z * ObjectAnno)) m f oid :
  (f, oid) ∉ (λ e : Z * Z * ObjectAnno, e.1) <$> l →
  get_object (load_records (export_record <$> l) m) f oid = get_object m f oid.
Proof.
  revert m. induction l as [|e l IH]; intros m Hnot; [done|].
  rewrite fmap_cons, load_records_cons, IH by (by apply not_elem_of_cons in Hnot as [_ ?]).
  rewrite get_object_load_record, record_target_export. destruct e as [[f0 oid0] o0].
  simpl. rewrite decide_False; [done|].
  intros [-> ->]. apply Hnot. by left.
Qed.

Lemma load_export_member (l : list (Z * Z * ObjectAnno)) m f oid o :
  NoDup ((λ e : Z * Z * ObjectAnno, e.1) <$> l) → (f, oid, o) ∈ l →
  get_object (load_records (export_record <$> l) m) f oid =
    Some (record_update (export_record (f, oid, o))
            (default new_object (get_object m f oid))).
Proof.
  revert m. induction l as [|[[f0 oid0] o0] l IH]; intros m Hnd Hin;
    [by apply elem_of_nil in Hin|].
  rewrite fmap_cons in Hnd. apply NoDup_cons in Hnd as [Hnot Hnd].
  rewrite fmap_cons, load_records_cons.
  apply elem_of_cons in Hin as [[= -> -> ->]|Hin].
  - rewrite load_export_other by done.
    rewrite get_object_load_record, record_target_export. simpl.
    by rewrite decide_True.
  - rewrite (IH _ Hnd Hin). do 3 f_equal.
    rewrite get_object_load_record, record_target_export. simpl.
    rewrite decide_False; [done|].
    intros [-> ->]. apply Hnot. simpl.
    apply (list_elem_of_fmap_2 (λ e : Z * Z * ObjectAnno, e.1) _ _ Hin).
Qed.

(** X20.  The export of one store can be loaded like saved records: it
    gives back exactly the objects that had content, each with its
    points and labels, its box if valid and its polygon if it has three
    vertices or more, and always without a class. *)
Theorem export_keeps_geometry_drops_class (vid : string) (m : AnnotationModel)
    (fs : list string) :
  ∃ items,
    export_items [(vid, m)] = Some items
    ∧ ∀ f oid,
        get_object (load_records items (new_model fs)) f oid =
          match get_object m f oid with
          | Some o => if has_content o then Some (with_class Py.VNone (stored o)) else None
          | None => None
          end.
Proof.
  eexists. split; [apply export_items_entries|]. intros f oid. simpl.
  rewrite app_nil_r.
  destruct (get_object m f oid) as [o|] eqn:Ho;
    [destruct (has_content o) eqn:Hc|].
  - rewrite (load_export_member (entries m) _ f oid o);
      [|apply NoDup_entries_keys|by apply elem_of_entries].
    by rewrite record_update_export_new.
  - rewrite load_export_other; [done|].
    intros ([[f' oid'] o'] & [= <- <-] & [Ho' Hc']%elem_of_entries)%list_elem_of_fmap.
    congruence.
  - rewrite load_export_other; [done|].
    intros ([[f' oid'] o'] & [= <- <-] & [Ho' Hc']%elem_of_entries)%list_elem_of_fmap.
    congruence.
Qed.
